(** * Batch image classification: routing, argmax, archive layout

    A shallow embedding of [ImageClassifier.tsx]: the body of
    [processBatchImages] (the classification loop, the routing of each
    image by confidence, the JSZip archive that is assembled afterwards)
    and of [preprocessImage].

    Conventions of the embedding.
    - A JavaScript number is a [number]: NaN, the two infinities, or a
      finite value carried as a rational.  Only the comparisons [>],
      [>=] and [<] of the source are used on them.
    - A JavaScript string is a [string]; [toLowerCase] folds the letters
      A-Z.  A code unit outside ASCII never lower-cases to one of the
      letters of the word normal, so the comparison of the source is
      not affected by this restriction.
    - An integer interpolated in a template literal is printed in
      decimal by stdpp's [pretty].
    - The JSZip object is a finite map from paths to entries. *)

From Stdlib Require Import QArith Ascii String.
From stdpp Require Import gmap strings list fin_maps pretty.


(** ** JavaScript numbers and their comparisons *)

Module Num.

Inductive number : Type :=
| NaN
| NegInfinity
| Finite (q : Q)
| Infinity.

(** IEEE comparison: [None] when one side is NaN. *)
Definition compare (a b : number) : option comparison :=
  match a, b with
  | NaN, _ | _, NaN => None
  | NegInfinity, NegInfinity => Some Eq
  | NegInfinity, _ => Some Lt
  | _, NegInfinity => Some Gt
  | Infinity, Infinity => Some Eq
  | Infinity, _ => Some Gt
  | _, Infinity => Some Lt
  | Finite x, Finite y => Some (Qcompare x y)
  end.

(** [a > b] *)
Definition gt (a b : number) : bool :=
  match compare a b with Some Gt => true | _ => false end.

(** [a >= b] *)
Definition ge (a b : number) : bool :=
  match compare a b with Some Gt | Some Eq => true | _ => false end.

(** [a < b] *)
Definition lt (a b : number) : bool :=
  match compare a b with Some Lt => true | _ => false end.

(** [a <= b] *)
Definition le (a b : number) : bool :=
  match compare a b with Some Lt | Some Eq => true | _ => false end.

Definition isNaN (a : number) : bool :=
  match a with NaN => true | _ => false end.

Definition one : number := Finite 1.
Definition half : number := Finite (1 # 2).

End Num.

Export Num(number, NaN, NegInfinity, Finite, Infinity).

(** ** Strings *)

Module Str.

(** One code unit of [String.prototype.toLowerCase]. *)
Definition lower_ascii (c : ascii) : ascii :=
  let n := Ascii.N_of_ascii c in
  if ((65 <=? n) && (n <=? 90))%N then Ascii.ascii_of_N (n + 32) else c.

Fixpoint toLowerCase (s : string) : string :=
  match s with
  | EmptyString => EmptyString
  | String c s' => String (lower_ascii c) (toLowerCase s')
  end.

(** Equality of two strings up to the case of their letters, compared
    one code unit at a time. *)
Fixpoint caseless_eqb (a b : string) : bool :=
  match a, b with
  | EmptyString, EmptyString => true
  | String x a', String y b' =>
      Ascii.eqb (lower_ascii x) (lower_ascii y) && caseless_eqb a' b'
  | _, _ => false
  end.

(** [s.endsWith(suffix)] as a proposition. *)
Definition ends_with (suffix s : string) : Prop :=
  exists front, s = front +:+ suffix.

(** [s.startsWith(front)]. *)
Fixpoint startsWith (front s : string) : bool :=
  match front, s with
  | EmptyString, _ => true
  | String x front', String y s' => Ascii.eqb x y && startsWith front' s'
  | String _ _, EmptyString => false
  end.

(** No underscore occurs in [s]. *)
Fixpoint no_underscore (s : string) : bool :=
  match s with
  | EmptyString => true
  | String c s' => negb (Ascii.eqb c "_") && no_underscore s'
  end.

End Str.

(** ** The classifier: argmax and label lookup *)

(** The scan [for (let j = 1; j < probabilities.length; j++)] over the
    entries that remain, carrying [maxIndex] and [maxProbability]. *)
Fixpoint scan (j : nat) (rest : list number)
    (maxIndex : nat) (maxProbability : number) : nat * number :=
  match rest with
  | [] => (maxIndex, maxProbability)
  | p :: rest' =>
      if Num.gt p maxProbability
      then scan (S j) rest' j p
      else scan (S j) rest' maxIndex maxProbability
  end.

(** [let maxIndex = 0; let maxProbability = probabilities[0]] followed by
    the scan.  [probabilities[0]] of an empty array is [undefined], which
    every comparison of the source treats as NaN. *)
Definition argmax (probabilities : list number) : nat * number :=
  scan 1 (drop 1 probabilities) 0 (nth 0 probabilities NaN).

(** The template literal [`Class ${maxIndex}`]. *)
Definition placeholder (maxIndex : nat) : string :=
  "Class " +:+ pretty maxIndex.

(** [classNames[maxIndex] || `Class ${maxIndex}`].  The
    operator [||] takes its right operand when the left one is falsy:
    [undefined] (index out of range) or the empty string. *)
Definition labelOf (classNames : list string) (maxIndex : nat) : string :=
  match classNames !! maxIndex with
  | Some EmptyString => placeholder maxIndex
  | Some s => s
  | None => placeholder maxIndex
  end.

(** ** Data of a batch run *)

(** A browser [File]: its name, its MIME type and its bytes. *)
Record File : Type := {
  name : string;
  type : string;
  content : list Byte.byte;
}.

(** The tensor [tf.browser.fromPixels(canvas).div(255.0)] of an image drawn
    on the 224 x 224 canvas, and the same tensor after [expandDims(0)]. *)
Inductive Tensor3D : Type := normalized (image : File).
Inductive Tensor4D : Type := expandDims (t : Tensor3D).

(** An element of [processedImages] and of the [classifiedImages] state. *)
Record ClassifiedItem : Type := {
  file : File;
  classification : string;
  timestamp : Z;
  confidence : number;
}.

(** The three arrays an image can be pushed on. *)
Inductive Category : Type := normal | theft | unidentified.

#[global] Instance Category_eq_dec : EqDecision Category.
Proof. solve_decision. Defined.

Definition folderOf (c : Category) : string :=
  match c with
  | normal => "normal"
  | theft => "theft"
  | unidentified => "unidentified"
  end.

(** The [if (confidence >= 1.0) { if (classification.toLowerCase() ===
    'normal') .. else .. } else ..] of the loop body. *)
Definition route (confidence : number) (classification : string) : Category :=
  if Num.ge confidence Num.one then
    if String.eqb (Str.toLowerCase classification) "normal"
    then normal
    else theft
  else unidentified.

(** The local arrays of [processBatchImages]. *)
Record Arrays : Type := {
  normalImages : list File;
  theftImages : list File;
  unidentifiedImages : list File;
  processedImages : list ClassifiedItem;
}.

Definition noArrays : Arrays :=
  {| normalImages := []; theftImages := []; unidentifiedImages := [];
     processedImages := [] |}.

(** [xs.push(image)] on the array chosen by the routing. *)
Definition pushImage (c : Category) (image : File) (a : Arrays) : Arrays :=
  match c with
  | normal =>
      {| normalImages := normalImages a ++ [image];
         theftImages := theftImages a;
         unidentifiedImages := unidentifiedImages a;
         processedImages := processedImages a |}
  | theft =>
      {| normalImages := normalImages a;
         theftImages := theftImages a ++ [image];
         unidentifiedImages := unidentifiedImages a;
         processedImages := processedImages a |}
  | unidentified =>
      {| normalImages := normalImages a;
         theftImages := theftImages a;
         unidentifiedImages := unidentifiedImages a ++ [image];
         processedImages := processedImages a |}
  end.

(** [processedImages.push(item)]. *)
Definition pushProcessed (item : ClassifiedItem) (a : Arrays) : Arrays :=
  {| normalImages := normalImages a;
     theftImages := theftImages a;
     unidentifiedImages := unidentifiedImages a;
     processedImages := processedImages a ++ [item] |}.

Definition imagesOf (c : Category) (a : Arrays) : list File :=
  match c with
  | normal => normalImages a
  | theft => theftImages a
  | unidentified => unidentifiedImages a
  end.

(** ** The archive *)

(** An entry of the JSZip object: a folder, or a file with its data. *)
Inductive Entry : Type := Folder | FileData (data : File).

Abbreviation Zip := (gmap string Entry).

(** [zip.folder(name)]: the folder entry is created and the returned object
    writes below [name/]. *)
Definition zipFolder (folder : string) (zip : Zip) : Zip :=
  <[folder +:+ "/" := Folder]> zip.

(** [folder.file(fileName, data)]: the entry of that path is set, replacing
    one that is already there. *)
Definition zipFile (folder fileName : string) (data : File) (zip : Zip) : Zip :=
  <[folder +:+ "/" +:+ fileName := FileData data]> zip.

(** The template literal [`${folder}_${Date.now()}_${index}.jpg`]. *)
Definition fileName (folder : string) (t : Z) (index : nat) : string :=
  folder +:+ "_" +:+ pretty t +:+ "_" +:+ pretty index +:+ ".jpg".

Definition isFile (e : Entry) : bool :=
  match e with FileData _ => true | Folder => false end.

(** The file entries of the archive, and those below one folder. *)
Definition filesOf (zip : Zip) : Zip :=
  filter (fun kv => isFile kv.2 = true) zip.

Definition filesIn (folder : string) (zip : Zip) : Zip :=
  filter (fun kv => isFile kv.2 = true /\
                    Str.startsWith (folder +:+ "/") kv.1 = true) zip.

(** ** The environment and the state of the component *)

(** The three [alert] calls of [processBatchImages]. *)
Inductive Alert : Type :=
| alertNotReady
| alertComplete (normalCount theftCount unidentifiedCount : nat)
    (folderName : string)
| alertFailed.

(** What the loop and the archive step do, in the order they do it. *)
Inductive Event : Type :=
| evSetBatchProgress (current total : nat)
| evPreprocessImage (image : File)
| evPredict (input : Tensor4D)
| evPush (c : Category) (image : File)
| evPushProcessed (item : ClassifiedItem)
| evOnImageClassified (image : File) (classification : string)
| evDownload (download : string)
| evSetClassifiedImages
| evAlert (a : Alert).

(** What the component is given: the loaded model ([None] while it is
    [null]; a prediction is [None] when [model.predict] throws), the class
    names, whether the browser decodes a file (a load event against an
    error event), the clock ([now k] is the value of the read number [k]
    of [Date.now()] or [new Date()]), ISO formatting of a date, and
    whether the import of jszip and [zip.generateAsync] succeed. *)
Record Env : Type := {
  model : option (Tensor4D -> option (list number));
  classNames : list string;
  decodes : File -> bool;
  now : nat -> Z;
  toISOString : Z -> string;
  importJSZip : bool;
  generateAsync : Zip -> bool;
}.

(** The React state of [ImageClassifier] ([batchProgress],
    [isBatchProcessing], [classifiedImages], [batchImages]), the
    [classifications] state of [Home] that [onImageClassified] appends to,
    the number of clock reads so far, the events so far and the files
    handed to the browser for download. *)
Record World : Type := {
  batchProgress : nat * nat;
  isBatchProcessing : bool;
  classifiedImages : list ClassifiedItem;
  batchImages : list File;
  classifications : list string;
  reads : nat;
  events : list Event;
  downloads : list (string * Zip);
}.

Definition current (w : World) : nat := (batchProgress w).1.
Definition total (w : World) : nat := (batchProgress w).2.

(** How an asynchronous computation ends: it returns, it throws, or it
    awaits a promise that never settles. *)
Inductive Result (A : Type) : Type :=
| Returned (a : A) (w : World)
| Thrown (w : World)
| Pending (w : World).

Arguments Returned {A} a w.
Arguments Thrown {A} w.
Arguments Pending {A} w.

Definition M (A : Type) : Type := World -> Result A.

Definition ret {A} (a : A) : M A := fun w => Returned a w.

Definition bind {A B} (c : M A) (k : A -> M B) : M B :=
  fun w =>
    match c w with
    | Returned a w' => k a w'
    | Thrown w' => Thrown w'
    | Pending w' => Pending w'
    end.

Notation "'let!' x ':=' c 'in' k" := (bind c (fun x => k))
  (at level 10, x name, c at level 100, k at level 200,
   format "'[v' 'let!'  x  ':='  c  'in' '/' k ']'").
Notation "c ';;;' k" := (bind c (fun _ => k))
  (at level 100, k at level 200, right associativity).

Definition throw {A} : M A := fun w => Thrown w.

(** [await p] for a promise [p] that is never resolved nor rejected. *)
Definition never {A} : M A := fun w => Pending w.

(** [try { body } catch { handler } finally { final }]. *)
Definition tryCatchFinally (body handler final : M unit) : M unit :=
  fun w =>
    match body w with
    | Returned _ w' => final w'
    | Thrown w' => (handler ;;; final) w'
    | Pending w' => Pending w'
    end.

Definition emit (e : Event) : M unit := fun w =>
  Returned tt
    {| batchProgress := batchProgress w;
       isBatchProcessing := isBatchProcessing w;
       classifiedImages := classifiedImages w;
       batchImages := batchImages w;
       classifications := classifications w;
       reads := reads w;
       events := events w ++ [e];
       downloads := downloads w |}.

Definition setBatchProgress (current total : nat) : M unit := fun w =>
  Returned tt
    {| batchProgress := (current, total);
       isBatchProcessing := isBatchProcessing w;
       classifiedImages := classifiedImages w;
       batchImages := batchImages w;
       classifications := classifications w;
       reads := reads w;
       events := events w ++ [evSetBatchProgress current total];
       downloads := downloads w |}.

Definition setIsBatchProcessing (b : bool) : M unit := fun w =>
  Returned tt
    {| batchProgress := batchProgress w;
       isBatchProcessing := b;
       classifiedImages := classifiedImages w;
       batchImages := batchImages w;
       classifications := classifications w;
       reads := reads w;
       events := events w;
       downloads := downloads w |}.

(** [setClassifiedImages((prev) => [...prev, ...processedImages])]. *)
Definition setClassifiedImages (processed : list ClassifiedItem) : M unit :=
  fun w =>
  Returned tt
    {| batchProgress := batchProgress w;
       isBatchProcessing := isBatchProcessing w;
       classifiedImages := classifiedImages w ++ processed;
       batchImages := batchImages w;
       classifications := classifications w;
       reads := reads w;
       events := events w ++ [evSetClassifiedImages];
       downloads := downloads w |}.

Definition setBatchImages (images : list File) : M unit := fun w =>
  Returned tt
    {| batchProgress := batchProgress w;
       isBatchProcessing := isBatchProcessing w;
       classifiedImages := classifiedImages w;
       batchImages := images;
       classifications := classifications w;
       reads := reads w;
       events := events w;
       downloads := downloads w |}.

(** [Date.now()]: the next value of the clock. *)
Definition dateNow (env : Env) : M Z := fun w =>
  Returned (now env (reads w))
    {| batchProgress := batchProgress w;
       isBatchProcessing := isBatchProcessing w;
       classifiedImages := classifiedImages w;
       batchImages := batchImages w;
       classifications := classifications w;
       reads := S (reads w);
       events := events w;
       downloads := downloads w |}.

(** [handleImageClassified] of [Home], passed as [onImageClassified]:
    [setClassifications((prev) => [...prev, classification])]. *)
Definition onImageClassified (image : File) (label : string) : M unit :=
  fun w =>
  Returned tt
    {| batchProgress := batchProgress w;
       isBatchProcessing := isBatchProcessing w;
       classifiedImages := classifiedImages w;
       batchImages := batchImages w;
       classifications := classifications w ++ [label];
       reads := reads w;
       events := events w ++ [evOnImageClassified image label];
       downloads := downloads w |}.

(** The click on the link whose [download] attribute is the file name. *)
Definition download (fileName : string) (zip : Zip) : M unit := fun w =>
  Returned tt
    {| batchProgress := batchProgress w;
       isBatchProcessing := isBatchProcessing w;
       classifiedImages := classifiedImages w;
       batchImages := batchImages w;
       classifications := classifications w;
       reads := reads w;
       events := events w ++ [evDownload fileName];
       downloads := downloads w ++ [(fileName, zip)] |}.

Definition alert (a : Alert) : M unit := emit (evAlert a).

(** ** [preprocessImage] *)

(** [new Promise((resolve) => { img.onload = () => ..resolve(normalized);
    img.src = URL.createObjectURL(imageFile) })].  The promise is resolved
    from the load handler.  No error handler is installed and the executor
    takes no [reject]: when the browser cannot decode the file the load
    event never fires and the promise stays pending. *)
Definition preprocessImage (env : Env) (imageFile : File) : M Tensor3D :=
  if decodes env imageFile
  then emit (evPreprocessImage imageFile) ;;; ret (normalized imageFile)
  else never.

(** [(await model.predict(batchedImage)) as tf.Tensor] followed by
    [await predictions.data()]. *)
Definition predictData (predict : Tensor4D -> option (list number))
    (batchedImage : Tensor4D) : M (list number) :=
  match predict batchedImage with
  | Some probabilities => emit (evPredict batchedImage) ;;; ret probabilities
  | None => throw
  end.

(** ** [processBatchImages] *)

(** The body of [for (let i = 0; i < batchImages.length; i++)] for
    [image = batchImages[i]], with [n = batchImages.length]. *)
Definition classifyImage (env : Env)
    (predict : Tensor4D -> option (list number))
    (n i : nat) (image : File) (a : Arrays) : M Arrays :=
  setBatchProgress (i + 1) n ;;;
  let! imageTensor := preprocessImage env image in
  let batchedImage := expandDims imageTensor in
  let! probabilities := predictData predict batchedImage in
  let maxIndex := (argmax probabilities).1 in
  let maxProbability := (argmax probabilities).2 in
  let classification := labelOf (classNames env) maxIndex in
  let confidence := maxProbability in
  let! timestamp := dateNow env in
  let category := route confidence classification in
  emit (evPush category image) ;;;
  let item := {| file := image; classification := classification;
                 timestamp := timestamp; confidence := confidence |} in
  emit (evPushProcessed item) ;;;
  onImageClassified image classification ;;;
  ret (pushProcessed item (pushImage category image a)).

(** The loop from index [i] over the images that remain. *)
Fixpoint classifyFrom (env : Env)
    (predict : Tensor4D -> option (list number))
    (n i : nat) (images : list File) (a : Arrays) : M Arrays :=
  match images with
  | [] => ret a
  | image :: rest =>
      let! a' := classifyImage env predict n i image a in
      classifyFrom env predict n (S i) rest a'
  end.

(** [images.forEach((image, index) => folder?.file(`..`, image))], from
    position [index] on. *)
Fixpoint addImages (env : Env) (folder : string) (index : nat)
    (images : list File) (zip : Zip) : M Zip :=
  match images with
  | [] => ret zip
  | image :: rest =>
      let! t := dateNow env in
      addImages env folder (S index) rest
        (zipFile folder (fileName folder t index) image zip)
  end.

(** [if (images.length > 0) { const folder = zip.folder(..); images.forEach
    (..) }]. *)
Definition addFolder (env : Env) (c : Category) (images : list File)
    (zip : Zip) : M Zip :=
  if (0 <? length images)%nat
  then addImages env (folderOf c) 0 images (zipFolder (folderOf c) zip)
  else ret zip.

(** The three blocks that fill [new JSZip()]. *)
Definition buildZip (env : Env) (a : Arrays) : M Zip :=
  let! z1 := addFolder env normal (normalImages a) ∅ in
  let! z2 := addFolder env theft (theftImages a) z1 in
  addFolder env unidentified (unidentifiedImages a) z2.

(** [s.replace(/:/g, '-')]. *)
Fixpoint replaceColons (s : string) : string :=
  match s with
  | EmptyString => EmptyString
  | String c s' =>
      String (if Ascii.eqb c ":" then "-"%char else c) (replaceColons s')
  end.

(** [`filtered_${new Date().toISOString().slice(0, 19).replace(/:/g, '-')}`]. *)
Definition folderNameAt (env : Env) (t : Z) : string :=
  "filtered_" +:+ replaceColons (String.substring 0 19 (toISOString env t)).

(** What follows the loop inside the [try] block. *)
Definition archiveAndRecord (env : Env) (a : Arrays) : M unit :=
  let! t := dateNow env in
  let folderName := folderNameAt env t in
  (if importJSZip env then ret tt else throw) ;;;
  let! zip := buildZip env a in
  (if generateAsync env zip then ret tt else throw) ;;;
  download (folderName +:+ ".zip") zip ;;;
  setClassifiedImages (processedImages a) ;;;
  setBatchImages [] ;;;
  alert (alertComplete (length (normalImages a)) (length (theftImages a))
           (length (unidentifiedImages a)) folderName).

Definition processBatchImages (env : Env) : M unit := fun w =>
  match model env with
  | None => alert alertNotReady w
  | Some predict =>
      if (length (batchImages w) =? 0)%nat then alert alertNotReady w
      else
        (setIsBatchProcessing true ;;;
         setBatchProgress 0 (length (batchImages w)) ;;;
         tryCatchFinally
           (let! a := classifyFrom env predict (length (batchImages w)) 0
                        (batchImages w) noArrays in
            archiveAndRecord env a)
           (alert alertFailed)
           (setIsBatchProcessing false ;;; setBatchProgress 0 0)) w
  end.

(** ** Predicates used in the statements *)

(** After the scan of the non-empty prefix [l], [maxIndex] holds the
    position of [maxProbability]; no entry of [l] is greater, and no entry
    before [maxIndex] is greater or equal. *)
Definition scanned (l : list number) (maxIndex : nat)
    (maxProbability : number) : Prop :=
  l !! maxIndex = Some maxProbability /\
  forall j x, l !! j = Some x ->
    Num.gt x maxProbability = false /\
    ((j < maxIndex)%nat -> Num.ge x maxProbability = false).

Definition noNaN (l : list number) : Prop :=
  Forall (fun x => Num.isNaN x = false) l.

(** The element pushed on [processedImages] for [image], from the output
    of the model and the clock value read for it. *)
Definition itemOf (env : Env) (probabilities : list number) (image : File)
    (t : Z) : ClassifiedItem :=
  {| file := image;
     classification := labelOf (classNames env) (argmax probabilities).1;
     timestamp := t;
     confidence := (argmax probabilities).2 |}.

(** The two pushes of one iteration. *)
Definition recordItem (a : Arrays) (item : ClassifiedItem) : Arrays :=
  pushProcessed item
    (pushImage (route (confidence item) (classification item)) (file item) a).

(** The events of iteration [i], in the order of the loop body. *)
Definition itemEvents (n i : nat) (item : ClassifiedItem) : list Event :=
  [ evSetBatchProgress (i + 1) n;
    evPreprocessImage (file item);
    evPredict (expandDims (normalized (file item)));
    evPush (route (confidence item) (classification item)) (file item);
    evPushProcessed item;
    evOnImageClassified (file item) (classification item) ].

Fixpoint batchEvents (n i : nat) (items : list ClassifiedItem) : list Event :=
  match items with
  | [] => []
  | item :: rest => itemEvents n i item ++ batchEvents n (S i) rest
  end.

(** The order of one iteration as the specification words it: the
    progress is updated after the item is appended. *)
Definition specItemEvents (n i : nat) (item : ClassifiedItem) : list Event :=
  [ evPreprocessImage (file item);
    evPredict (expandDims (normalized (file item)));
    evPush (route (confidence item) (classification item)) (file item);
    evPushProcessed item;
    evSetBatchProgress (i + 1) n;
    evOnImageClassified (file item) (classification item) ].

(** The browser decodes [image] and the model accepts its tensor. *)
Definition classifiable (env : Env)
    (predict : Tensor4D -> option (list number)) (image : File) : Prop :=
  decodes env image = true /\
  is_Some (predict (expandDims (normalized image))).

(** [item] is what the classifier yields for its file at some clock value. *)
Definition classifiedBy (env : Env)
    (predict : Tensor4D -> option (list number))
    (item : ClassifiedItem) : Prop :=
  exists probabilities,
    predict (expandDims (normalized (file item))) = Some probabilities /\
    classification item = labelOf (classNames env) (argmax probabilities).1 /\
    confidence item = (argmax probabilities).2.

(** The state after iteration [i] over [item], started in [w]. *)
Definition afterItem (n i : nat) (item : ClassifiedItem) (w : World) : World :=
  {| batchProgress := (i + 1, n)%nat;
     isBatchProcessing := isBatchProcessing w;
     classifiedImages := classifiedImages w;
     batchImages := batchImages w;
     classifications := classifications w ++ [classification item];
     reads := S (reads w);
     events := events w ++ itemEvents n i item;
     downloads := downloads w |}.

(** The order of a whole run as the specification words it. *)
Fixpoint specBatchEvents (n i : nat) (items : list ClassifiedItem)
    : list Event :=
  match items with
  | [] => []
  | item :: rest => specItemEvents n i item ++ specBatchEvents n (S i) rest
  end.

(** The number of items appended to [processedImages] so far. *)
Definition isPushProcessed (e : Event) : bool :=
  match e with evPushProcessed _ => true | _ => false end.

Definition completed (evs : list Event) : nat :=
  length (filter (fun e => isPushProcessed e = true) evs).

(** ** Sample inputs *)

Definition png (n : string) : File :=
  {| name := n; type := "image/png"; content := [] |}.

(** The model of the end-to-end scenario: outputs [1, 0], [0, 1] and
    [0.8, 0.2] for the images a, b and any other. *)
Definition samplePredict (t : Tensor4D) : option (list number) :=
  match t with
  | expandDims (normalized f) =>
      if String.eqb (name f) "a" then Some [Finite 1; Finite 0]
      else if String.eqb (name f) "b" then Some [Finite 0; Finite 1]
      else Some [Finite (8 # 10); Finite (2 # 10)]
  end.

(** A model that rejects the image b. *)
Definition rejectingPredict (t : Tensor4D) : option (list number) :=
  match t with
  | expandDims (normalized f) =>
      if String.eqb (name f) "b" then None else samplePredict t
  end.

Definition sampleEnv : Env :=
  {| model := Some samplePredict;
     classNames := ["normal"; "tampered"];
     decodes := fun _ => true;
     now := fun _ => 1700000000000%Z;
     toISOString := fun _ => "2026-11-03T05:42:00.000Z";
     importJSZip := true;
     generateAsync := fun _ => true |}.

(** The same environment with an archive that cannot be serialized. *)
Definition failingArchiveEnv : Env :=
  {| model := Some samplePredict;
     classNames := ["normal"; "tampered"];
     decodes := fun _ => true;
     now := fun _ => 1700000000000%Z;
     toISOString := fun _ => "2026-11-03T05:42:00.000Z";
     importJSZip := true;
     generateAsync := fun _ => false |}.

(** The same environment with a browser that cannot decode the image b. *)
Definition undecodableEnv : Env :=
  {| model := Some samplePredict;
     classNames := ["normal"; "tampered"];
     decodes := fun f => negb (String.eqb (name f) "b");
     now := fun _ => 1700000000000%Z;
     toISOString := fun _ => "2026-11-03T05:42:00.000Z";
     importJSZip := true;
     generateAsync := fun _ => true |}.

Definition worldWith (images : list File) : World :=
  {| batchProgress := (0, 0)%nat;
     isBatchProcessing := false;
     classifiedImages := [];
     batchImages := images;
     classifications := [];
     reads := 0;
     events := [];
     downloads := [] |}.

Definition sampleImages : list File := [png "a"; png "b"; png "c"].

Definition sampleWorld : World := worldWith sampleImages.

(** The arrays and the state at the end of the loop over the sample. *)
Definition sampleArrays : Arrays :=
  Eval vm_compute in
  match classifyFrom sampleEnv samplePredict 3 0 sampleImages noArrays
          sampleWorld with
  | Returned a _ => a
  | _ => noArrays
  end.

Definition sampleLoopEnd : World :=
  Eval vm_compute in
  match classifyFrom sampleEnv samplePredict 3 0 sampleImages noArrays
          sampleWorld with
  | Returned _ w => w
  | Thrown w | Pending w => w
  end.

(** ** Paths and clock of the archive step *)

(** The path of the entry written for position [index] of the array of
    category [c] at clock value [t]. *)
Definition pathOf (c : Category) (t : Z) (index : nat) : string :=
  folderOf c +:+ "/" +:+ fileName (folderOf c) t index.

(** No path of category [c] with a position from [index] on is taken. *)
Definition freshFrom (c : Category) (index : nat) (zip : Zip) : Prop :=
  forall t j, (index <= j)%nat -> zip !! pathOf c t j = None.

(** The state after [k] more reads of the clock. *)
Definition tick (k : nat) (w : World) : World :=
  {| batchProgress := batchProgress w;
     isBatchProcessing := isBatchProcessing w;
     classifiedImages := classifiedImages w;
     batchImages := batchImages w;
     classifications := classifications w;
     reads := k + reads w;
     events := events w;
     downloads := downloads w |}.

(** Every entry of the archive is the folder of a category of [cs] or a
    file written for a category of [cs]. *)
Definition onlyFrom (cs : list Category) (zip : Zip) : Prop :=
  forall p e, zip !! p = Some e ->
    (e = Folder /\ exists c, c ∈ cs /\ p = folderOf c +:+ "/") \/
    (isFile e = true /\ exists c t j, c ∈ cs /\ p = pathOf c t j).

(** The state in which the loop starts: after [setIsBatchProcessing(true)]
    and [setBatchProgress({ current: 0, total: batchImages.length })]. *)
Definition started (w : World) : World :=
  {| batchProgress := (0, length (batchImages w))%nat;
     isBatchProcessing := true;
     classifiedImages := classifiedImages w;
     batchImages := batchImages w;
     classifications := classifications w;
     reads := reads w;
     events := events w ++ [evSetBatchProgress 0 (length (batchImages w))];
     downloads := downloads w |}.

(** The conditions under which nothing fails in a run from [w]. *)
Definition allGoesWell (env : Env)
    (predict : Tensor4D -> option (list number)) (w : World) : Prop :=
  model env = Some predict /\
  batchImages w <> [] /\
  Forall (classifiable env predict) (batchImages w) /\
  importJSZip env = true /\
  (forall zip, generateAsync env zip = true).

(** The state at the end of the loop over the sample when the run is
    started by [processBatchImages]. *)
Definition sampleStartedLoopEnd : World :=
  Eval vm_compute in
  match classifyFrom failingArchiveEnv samplePredict 3 0 sampleImages
          noArrays (started sampleWorld) with
  | Returned _ w => w
  | Thrown w | Pending w => w
  end.

(** ** The rest of the component *)

(** [handleBatchImageSelect]: [Array.from(event.target.files || [])],
    filtered by [file.type.startsWith('image/')], becomes the selection.
    [files] is [None] when [event.target.files] is [null]. *)
Definition isImageFile (f : File) : bool := Str.startsWith "image/" (type f).

Definition handleBatchImageSelect (files : option (list File)) : M unit :=
  let imageFiles :=
    filter (fun f => isImageFile f = true) (default [] files) in
  setBatchImages imageFiles.

(** [getClassificationStats]: the three counters shown on the dashboard,
    computed from the [classifiedImages] state.  The word theft is, like
    the word normal, free of letters that a code unit outside ASCII
    lower-cases to. *)
Record Stats : Type := {
  normalCount : nat;
  theftCount : nat;
  unidentifiedCount : nat;
}.

Definition getClassificationStats (classified : list ClassifiedItem) : Stats :=
  {| normalCount :=
       length (filter (fun item =>
         String.eqb (Str.toLowerCase (classification item)) "normal"
         && Num.ge (confidence item) Num.one = true) classified);
     theftCount :=
       length (filter (fun item =>
         String.eqb (Str.toLowerCase (classification item)) "theft"
         && Num.ge (confidence item) Num.one = true) classified);
     unidentifiedCount :=
       length (filter (fun item =>
         Num.lt (confidence item) Num.one = true) classified) |}.

(** [getStats] of [Home], over its [classifications] state. *)
Module Home.

Record Stats : Type := {
  normalCount : nat;
  theftCount : nat;
}.

Definition getStats (classifications : list string) : Stats :=
  {| normalCount :=
       length (filter (fun c =>
         String.eqb (Str.toLowerCase c) "normal" = true) classifications);
     theftCount :=
       length (filter (fun c =>
         String.eqb (Str.toLowerCase c) "theft" = true) classifications) |}.

End Home.

(** ** [loadLocalModel] *)

(** What [fetch('/metadata.json')] and the reading of its body come to:
    the fetch rejects, the response is not ok, [response.json()] rejects
    (or the document has no member to read [labels] from), or the document
    is read and [metadata.labels] is an array of names ([Some]) or is
    missing ([None]). *)
Inductive MetadataResponse : Type :=
| fetchRejected
| responseNotOk
| jsonRejected
| metadataJson (labels : option (list string)).

(** What the two loaders of TensorFlow.js and the fetch come to. *)
Record LoadEnv : Type := {
  loadLayersModel : option (Tensor4D -> option (list number));
  loadGraphModel : option (Tensor4D -> option (list number));
  fetchMetadata : MetadataResponse;
}.

(** The [model], [isModelLoading] and [classNames] state, and the number
    of alerts raised by the loader. *)
Record ModelState : Type := {
  loadedModel : option (Tensor4D -> option (list number));
  isModelLoading : bool;
  loadedClassNames : list string;
  loadAlerts : nat;
}.

(** The state of a component that has just been mounted. *)
Definition mounted : ModelState :=
  {| loadedModel := None;
     isModelLoading := false;
     loadedClassNames := ["theft"; "Normal"];
     loadAlerts := 0 |}.

(** The inner [try] of [loadLocalModel]: the class names after the
    metadata have been asked for. *)
Definition classNamesAfter (r : MetadataResponse) (names : list string)
    : list string :=
  match r with
  | metadataJson (Some labels) => labels
  | _ => names
  end.

(** [loadLocalModel]: the layers loader, then the graph loader when the
    first throws; with a model, the metadata; without one, the alert of
    the outer [catch]; [setIsModelLoading(false)] in the [finally]. *)
Definition loadLocalModel (le : LoadEnv) (s : ModelState) : ModelState :=
  let loaded :=
    match loadLayersModel le with
    | Some m => Some m
    | None => loadGraphModel le
    end in
  match loaded with
  | Some m =>
      {| loadedModel := Some m;
         isModelLoading := false;
         loadedClassNames :=
           classNamesAfter (fetchMetadata le) (loadedClassNames s);
         loadAlerts := loadAlerts s |}
  | None =>
      {| loadedModel := loadedModel s;
         isModelLoading := false;
         loadedClassNames := loadedClassNames s;
         loadAlerts := S (loadAlerts s) |}
  end.

(** The environment of a batch run for the [model] and [classNames] state
    that the loader has left. *)
Definition envWith (s : ModelState) (env : Env) : Env :=
  {| model := loadedModel s;
     classNames := loadedClassNames s;
     decodes := decodes env;
     now := now env;
     toISOString := toISOString env;
     importJSZip := importJSZip env;
     generateAsync := generateAsync env |}.

(** ** Predicates of the further statements *)

(** No colon occurs in [s]. *)
Fixpoint noColon (s : string) : bool :=
  match s with
  | EmptyString => true
  | String c s' => negb (Ascii.eqb c ":") && noColon s'
  end.

(** The run changes nothing but the list of events. *)
Definition sameButEvents (w w' : World) : Prop :=
  batchProgress w' = batchProgress w /\
  isBatchProcessing w' = isBatchProcessing w /\
  classifiedImages w' = classifiedImages w /\
  batchImages w' = batchImages w /\
  classifications w' = classifications w /\
  reads w' = reads w /\
  downloads w' = downloads w.

(** The items a batch run produces are confidently routed or not: what
    the dashboard counts as theft among them. *)
Definition labelledTheft (item : ClassifiedItem) : Prop :=
  String.eqb (Str.toLowerCase (classification item)) "theft" = true.

(** A model that rejects the image b, in the sample environment. *)
Definition rejectingEnv : Env :=
  {| model := Some rejectingPredict;
     classNames := ["normal"; "tampered"];
     decodes := fun _ => true;
     now := fun _ => 1700000000000%Z;
     toISOString := fun _ => "2026-11-03T05:42:00.000Z";
     importJSZip := true;
     generateAsync := fun _ => true |}.

(** A text file, which the selection drops. *)
Definition txt (n : string) : File :=
  {| name := n; type := "text/plain"; content := [] |}.

(** The number of clock reads of the archive step before the folder of
    category [c] is filled. *)
Definition readsBefore (c : Category) (a : Arrays) : nat :=
  match c with
  | normal => 0
  | theft => length (normalImages a)
  | unidentified => length (normalImages a) + length (theftImages a)
  end.

(** The sample environment of a component whose layers model has loaded
    and whose metadata request was rejected: the class names are the
    defaults. *)
Definition defaultNamesEnv : Env :=
  envWith
    (loadLocalModel
       {| loadLayersModel := Some samplePredict;
          loadGraphModel := None;
          fetchMetadata := fetchRejected |} mounted)
    sampleEnv.

Definition defaultNamesArrays : Arrays :=
  Eval vm_compute in
  match classifyFrom defaultNamesEnv samplePredict 3 0 sampleImages noArrays
          sampleWorld with
  | Returned a _ => a
  | _ => noArrays
  end.

Definition defaultNamesLoopEnd : World :=
  Eval vm_compute in
  match classifyFrom defaultNamesEnv samplePredict 3 0 sampleImages noArrays
          sampleWorld with
  | Returned _ w => w
  | Thrown w | Pending w => w
  end.

(** The items that none of the three counters counts: confidence 1 or
    above with a label that is neither normal nor theft, or a confidence
    that is NaN. *)
Definition countedNowhere (item : ClassifiedItem) : bool :=
  Num.ge (confidence item) Num.one
  && negb (String.eqb (Str.toLowerCase (classification item)) "normal")
  && negb (String.eqb (Str.toLowerCase (classification item)) "theft")
  || Num.isNaN (confidence item).

(** * Properties *)

(** ** Order facts on numbers *)

Module NumFacts.

Lemma compare_Gt_trans a b c :
  Num.compare a b = Some Gt -> Num.compare b c = Some Gt ->
  Num.compare a c = Some Gt.
Proof.
  destruct a as [| |x|], b as [| |y|], c as [| |z|]; simpl;
    try discriminate; try reflexivity.
  intros Hab Hbc. f_equal.
  injection Hab as Hab. injection Hbc as Hbc.
  apply Qgt_alt in Hab. apply Qgt_alt in Hbc.
  apply Qgt_alt. exact (Qlt_trans _ _ _ Hbc Hab).
Qed.

Lemma compare_Eq_Gt_trans a b c :
  Num.compare a b = Some Eq -> Num.compare b c = Some Gt ->
  Num.compare a c = Some Gt.
Proof.
  destruct a as [| |x|], b as [| |y|], c as [| |z|]; simpl;
    try discriminate; try reflexivity.
  intros Hab Hbc. f_equal.
  injection Hab as Hab. injection Hbc as Hbc.
  apply Qeq_alt in Hab. apply Qgt_alt in Hbc.
  apply Qgt_alt. rewrite Hab. exact Hbc.
Qed.

Lemma gt_irrefl a : Num.gt a a = false.
Proof.
  unfold Num.gt. destruct a as [| |x|]; simpl; try reflexivity.
  assert (Qcompare x x = Eq) as -> by (apply Qeq_alt; reflexivity).
  reflexivity.
Qed.

Lemma gt_true a b : Num.gt a b = true <-> Num.compare a b = Some Gt.
Proof.
  unfold Num.gt. destruct (Num.compare a b) as [[]|]; split; congruence.
Qed.

Lemma ge_true a b :
  Num.ge a b = true <->
  Num.compare a b = Some Gt \/ Num.compare a b = Some Eq.
Proof.
  unfold Num.ge. destruct (Num.compare a b) as [[]|];
    split; try tauto; try congruence; intros [?|?]; congruence.
Qed.

(** Something above the old maximum is not exceeded by what the old
    maximum was not exceeded by. *)
Lemma gt_raise x y m :
  Num.gt y m = true -> Num.gt x m = false -> Num.gt x y = false.
Proof.
  intros Hy Hx. destruct (Num.gt x y) eqn:Hxy; [|reflexivity].
  apply gt_true in Hy. apply gt_true in Hxy.
  assert (Num.gt x m = true) by (apply gt_true; eauto using compare_Gt_trans).
  congruence.
Qed.

Lemma ge_raise x y m :
  Num.gt y m = true -> Num.gt x m = false -> Num.ge x y = false.
Proof.
  intros Hy Hx. destruct (Num.ge x y) eqn:Hxy; [|reflexivity].
  apply gt_true in Hy. apply ge_true in Hxy.
  assert (Num.gt x m = true).
  { apply gt_true.
    destruct Hxy; eauto using compare_Gt_trans, compare_Eq_Gt_trans. }
  congruence.
Qed.

(** Without NaN the order is total. *)
Lemma not_gt_le a b :
  Num.isNaN a = false -> Num.isNaN b = false ->
  Num.gt a b = false -> Num.le a b = true.
Proof.
  unfold Num.gt, Num.le.
  destruct a, b; simpl; try discriminate; try reflexivity.
  destruct (Qcompare _ _); congruence.
Qed.

Lemma not_ge_lt a b :
  Num.isNaN a = false -> Num.isNaN b = false ->
  Num.ge a b = false -> Num.lt a b = true.
Proof.
  unfold Num.ge, Num.lt.
  destruct a, b; simpl; try discriminate; try reflexivity.
  destruct (Qcompare _ _); congruence.
Qed.

Lemma lt_not_ge a b : Num.lt a b = true -> Num.ge a b = false.
Proof.
  unfold Num.ge, Num.lt. destruct (Num.compare a b) as [[]|]; congruence.
Qed.

End NumFacts.

(** ** The argmax scan *)

Lemma scanned_singleton x : scanned [x] 0 x.
Proof.
  split; [reflexivity|].
  intros [|j] y Hy; simpl in Hy; [|destruct j; discriminate].
  injection Hy as <-. split; [apply NumFacts.gt_irrefl | lia].
Qed.

Lemma scanned_keep l i m y :
  scanned l i m -> Num.gt y m = false -> scanned (l ++ [y]) i m.
Proof.
  intros [Hi Hall] Hy. split.
  - apply lookup_app_l_Some. exact Hi.
  - intros j x Hj. apply lookup_snoc_Some in Hj as [[_ Hj]|[-> <-]].
    + apply (Hall _ _ Hj).
    + split; [exact Hy|].
      intros Hlt. apply lookup_lt_Some in Hi. lia.
Qed.

Lemma scanned_raise l i m y :
  scanned l i m -> Num.gt y m = true -> scanned (l ++ [y]) (length l) y.
Proof.
  intros [Hi Hall] Hy. split.
  - apply list_lookup_middle. reflexivity.
  - intros j x Hj. apply lookup_snoc_Some in Hj as [[Hlt Hj]|[-> <-]].
    + destruct (Hall _ _ Hj) as [Hx _].
      split; [|intros _]; eauto using NumFacts.gt_raise, NumFacts.ge_raise.
    + split; [apply NumFacts.gt_irrefl | lia].
Qed.

Lemma scan_scanned rest : forall l i m,
  scanned l i m ->
  scanned (l ++ rest) (scan (length l) rest i m).1 (scan (length l) rest i m).2.
Proof.
  induction rest as [|y rest IH]; intros l i m Hinv; simpl.
  - rewrite app_nil_r. exact Hinv.
  - replace (l ++ y :: rest) with ((l ++ [y]) ++ rest)
      by (rewrite <- app_assoc; reflexivity).
    replace (S (length l)) with (length (l ++ [y]))
      by (rewrite length_app; simpl; lia).
    destruct (Num.gt y m) eqn:Hy; apply IH.
    + eapply scanned_raise; eauto.
    + apply scanned_keep; assumption.
Qed.

Lemma argmax_scanned p :
  p <> [] -> scanned p (argmax p).1 (argmax p).2.
Proof.
  destruct p as [|x rest]; [congruence|]. intros _.
  unfold argmax. simpl. rewrite drop_0.
  apply (scan_scanned rest [x] 0 x), scanned_singleton.
Qed.

(** C3.  For every non-empty output vector the scan returns an index of
    the vector together with the value stored there; no entry is greater
    than that value and no entry before the index is greater or equal to
    it.  When no entry is NaN this says that the index is the least one
    that attains the maximum: every entry is at most the value, every
    earlier entry is strictly below it.  On [0.5, 0.5] with the labels
    normal and tampered the index is 0 and the label is normal. *)
Theorem argmax_least_index_of_maximum (probabilities : list number) :
  probabilities <> [] ->
  let maxIndex := (argmax probabilities).1 in
  let maxProbability := (argmax probabilities).2 in
  probabilities !! maxIndex = Some maxProbability /\
  (forall j x, probabilities !! j = Some x ->
     Num.gt x maxProbability = false /\
     ((j < maxIndex)%nat -> Num.ge x maxProbability = false)) /\
  (noNaN probabilities ->
   forall j x, probabilities !! j = Some x ->
     Num.le x maxProbability = true /\
     ((j < maxIndex)%nat -> Num.lt x maxProbability = true)) /\
  argmax [Num.half; Num.half] = (0%nat, Num.half) /\
  labelOf ["normal"; "tampered"] (argmax [Num.half; Num.half]).1 = "normal".
Proof.
  intros Hne maxIndex maxProbability.
  destruct (argmax_scanned probabilities Hne) as [Hat Hall].
  fold maxIndex maxProbability in Hat, Hall.
  split; [exact Hat|]. split; [exact Hall|].
  split; [|split; reflexivity].
  intros Hnan j x Hj.
  unfold noNaN in Hnan. rewrite Forall_lookup in Hnan.
  pose proof (Hnan _ _ Hj) as Hx. pose proof (Hnan _ _ Hat) as Hm.
  destruct (Hall _ _ Hj) as [Hgt Hge].
  split.
  - apply NumFacts.not_gt_le; assumption.
  - intros Hlt. apply NumFacts.not_ge_lt; auto.
Qed.

Lemma argmax_least_index_of_maximum_witness :
  [Finite (3 # 10); Finite (7 # 10); Finite (7 # 10)] !! 1%nat
  = Some (Finite (7 # 10)) /\
  argmax [Finite (3 # 10); Finite (7 # 10); Finite (7 # 10)]
  = (1%nat, Finite (7 # 10)) /\
  argmax [Num.half; Num.half] = (0%nat, Num.half).
Proof.
  assert ([Finite (3 # 10); Finite (7 # 10); Finite (7 # 10)] <> [])
    as Hne by discriminate.
  destruct (argmax_least_index_of_maximum
              [Finite (3 # 10); Finite (7 # 10); Finite (7 # 10)] Hne)
    as (Hat & _ & _ & Htie & _).
  split; [exact Hat|]. split; [reflexivity | exact Htie].
Defined.

(** ** Label lookup *)

Lemma labelOf_in_range classNames i s :
  classNames !! i = Some s -> s <> EmptyString -> labelOf classNames i = s.
Proof.
  unfold labelOf. intros -> Hs. destruct s; [congruence | reflexivity].
Qed.

Lemma labelOf_out_of_range classNames i :
  classNames !! i = None -> labelOf classNames i = placeholder i.
Proof. unfold labelOf. intros ->. reflexivity. Qed.

Lemma labelOf_empty classNames i :
  classNames !! i = Some EmptyString -> labelOf classNames i = placeholder i.
Proof. unfold labelOf. intros ->. reflexivity. Qed.

(** C8, as the code has it.  The label is [classNames[maxIndex]] whenever
    the index is in range and the name stored there is not the empty
    string; it is the placeholder when the index is out of range and also
    when the name stored there is empty; and the placeholder is returned
    in no other case, unless the stored name is that very text. *)
Theorem label_or_placeholder (classNames : list string) (maxIndex : nat) :
  (forall s, classNames !! maxIndex = Some s -> s <> EmptyString ->
     labelOf classNames maxIndex = s) /\
  (classNames !! maxIndex = None ->
     labelOf classNames maxIndex = placeholder maxIndex) /\
  (classNames !! maxIndex = Some EmptyString ->
     labelOf classNames maxIndex = placeholder maxIndex) /\
  (labelOf classNames maxIndex = placeholder maxIndex ->
     classNames !! maxIndex = None \/
     classNames !! maxIndex = Some EmptyString \/
     classNames !! maxIndex = Some (placeholder maxIndex)).
Proof.
  repeat split.
  - intros s. apply labelOf_in_range.
  - apply labelOf_out_of_range.
  - apply labelOf_empty.
  - unfold labelOf. destruct (classNames !! maxIndex) as [[|c s]|]; auto.
    intros ->. auto.
Qed.

Lemma label_or_placeholder_witness :
  labelOf ["theft"; "Normal"] 1 = "Normal" /\
  labelOf ["theft"; "Normal"] 2 = "Class 2" /\
  labelOf ["theft"; EmptyString] 1 = "Class 1".
Proof.
  pose proof (label_or_placeholder ["theft"; "Normal"] 1) as (H1 & _).
  pose proof (label_or_placeholder ["theft"; "Normal"] 2) as (_ & H2 & _).
  pose proof (label_or_placeholder ["theft"; EmptyString] 1) as (_ & _ & H3 & _).
  split; [|split].
  - apply H1; [reflexivity | discriminate].
  - apply H2. reflexivity.
  - apply H3. reflexivity.
Defined.

(** C8 as it is worded fails: with an empty name at an index in range the
    label is the placeholder, not the name. *)
Lemma label_in_range_not_always_the_name :
  ~ (forall (classNames : list string) (maxIndex : nat) (s : string),
       classNames !! maxIndex = Some s -> labelOf classNames maxIndex = s).
Proof.
  intros H. specialize (H ["theft"; EmptyString] 1%nat EmptyString eq_refl).
  vm_compute in H. discriminate.
Qed.

(** ** Routing *)

Module StrFacts.

Lemma caseless_eqb_lower a : forall b,
  Str.caseless_eqb a b = String.eqb (Str.toLowerCase a) (Str.toLowerCase b).
Proof.
  induction a as [|x a IH]; intros [|y b]; simpl; try reflexivity.
  rewrite IH. destruct (Ascii.eqb _ _); reflexivity.
Qed.

(** Comparing the lower-cased label with the word is comparing the two
    up to case. *)
Lemma lower_is_normal label :
  String.eqb (Str.toLowerCase label) "normal" = Str.caseless_eqb label "normal".
Proof. rewrite caseless_eqb_lower. reflexivity. Qed.

End StrFacts.

Lemma route_normal c label :
  Num.ge c Num.one = true -> Str.caseless_eqb label "normal" = true ->
  route c label = normal.
Proof.
  unfold route. rewrite StrFacts.lower_is_normal. intros -> ->. reflexivity.
Qed.

Lemma route_theft c label :
  Num.ge c Num.one = true -> Str.caseless_eqb label "normal" = false ->
  route c label = theft.
Proof.
  unfold route. rewrite StrFacts.lower_is_normal. intros -> ->. reflexivity.
Qed.

Lemma route_unidentified c label :
  Num.lt c Num.one = true -> route c label = unidentified.
Proof.
  unfold route. intros H. rewrite (NumFacts.lt_not_ge _ _ H). reflexivity.
Qed.

(** ** One iteration of the loop *)

Lemma classifyImage_returns env predict n i image a w probabilities :
  decodes env image = true ->
  predict (expandDims (normalized image)) = Some probabilities ->
  let item := itemOf env probabilities image (now env (reads w)) in
  classifyImage env predict n i image a w
  = Returned (recordItem a item) (afterItem n i item w).
Proof.
  intros Hdec Hpred item.
  unfold classifyImage, preprocessImage, predictData, bind. simpl.
  rewrite Hdec. simpl. rewrite Hpred. simpl.
  unfold afterItem, itemEvents. simpl.
  rewrite <- !app_assoc. reflexivity.
Qed.

Lemma classifyImage_pending env predict n i image a w :
  decodes env image = false ->
  exists w', classifyImage env predict n i image a w = Pending w' /\
    batchProgress w' = (i + 1, n)%nat /\
    isBatchProcessing w' = isBatchProcessing w /\
    classifiedImages w' = classifiedImages w /\
    events w' = events w ++ [evSetBatchProgress (i + 1) n].
Proof.
  intros Hdec.
  unfold classifyImage, preprocessImage, bind. simpl.
  rewrite Hdec. simpl. eexists. split; [reflexivity|]. simpl. auto.
Qed.

Lemma classifyImage_returned env predict n i image a w a' w' :
  classifyImage env predict n i image a w = Returned a' w' ->
  exists probabilities,
    decodes env image = true /\
    predict (expandDims (normalized image)) = Some probabilities /\
    a' = recordItem a (itemOf env probabilities image (now env (reads w))) /\
    w' = afterItem n i (itemOf env probabilities image (now env (reads w))) w.
Proof.
  intros H.
  destruct (decodes env image) eqn:Hdec.
  - destruct (predict (expandDims (normalized image))) as [probabilities|]
      eqn:Hpred.
    + rewrite (classifyImage_returns _ _ _ _ _ _ _ _ Hdec Hpred) in H.
      injection H as <- <-. eauto.
    + unfold classifyImage, preprocessImage, predictData, bind in H.
      simpl in H. rewrite Hdec in H. simpl in H. rewrite Hpred in H.
      discriminate.
  - destruct (classifyImage_pending env predict n i image a w Hdec)
      as (? & Heq & _). congruence.
Qed.

(** ** The whole loop *)

(** What a loop that returns has done. *)
Lemma classifyFrom_returned env predict n images : forall i a w a' w',
  classifyFrom env predict n i images a w = Returned a' w' ->
  exists items,
    map file items = images /\
    Forall (classifiedBy env predict) items /\
    Forall (fun image => decodes env image = true) images /\
    a' = foldl recordItem a items /\
    events w' = events w ++ batchEvents n i items /\
    (images <> [] -> batchProgress w' = (i + length images, n)%nat) /\
    (images = [] -> batchProgress w' = batchProgress w) /\
    isBatchProcessing w' = isBatchProcessing w /\
    classifiedImages w' = classifiedImages w /\
    batchImages w' = batchImages w /\
    classifications w' = classifications w ++ map classification items /\
    reads w' = (reads w + length images)%nat /\
    downloads w' = downloads w.
Proof.
  induction images as [|image rest IH]; intros i a w a' w' H; simpl in H.
  - injection H as <- <-. exists []. simpl.
    rewrite !app_nil_r, Nat.add_0_r. repeat split; auto; congruence.
  - unfold bind in H.
    destruct (classifyImage env predict n i image a w) as [a1 w1| |] eqn:Hstep;
      try discriminate.
    apply classifyImage_returned in Hstep
      as (probabilities & Hdec & Hpred & -> & ->).
    apply IH in H as (items & Hfiles & Hby & Hdecs & -> & Hev & Hprog & Hprog0 &
                      Hbusy & Hcls & Hbatch & Hlabels & Hreads & Hdl).
    set (item := itemOf env probabilities image (now env (reads w))) in *.
    exists (item :: items). simpl in *.
    repeat split; auto.
    + rewrite Hfiles. reflexivity.
    + constructor; [|exact Hby]. exists probabilities. auto.
    + rewrite Hev, <- app_assoc. reflexivity.
    + intros _. destruct rest as [|image' rest].
      * rewrite Hprog0 by reflexivity. simpl. f_equal; lia.
      * rewrite Hprog by discriminate. simpl. f_equal; lia.
    + congruence.
    + rewrite Hlabels, <- app_assoc. reflexivity.
    + rewrite Hreads. lia.
Qed.

(** A loop over images that all decode and are all accepted by the model
    returns. *)
Lemma classifyFrom_returns env predict n images : forall i a w,
  Forall (classifiable env predict) images ->
  exists a' w', classifyFrom env predict n i images a w = Returned a' w'.
Proof.
  induction images as [|image rest IH]; intros i a w Hall; simpl.
  - eexists _, _. reflexivity.
  - apply Forall_cons in Hall as [[Hdec [probabilities Hpred]] Hrest].
    unfold bind.
    rewrite (classifyImage_returns _ _ _ _ _ _ _ _ Hdec Hpred).
    apply IH, Hrest.
Qed.

(** The loop stops for good at the first image the browser cannot decode. *)
Lemma classifyFrom_pending env predict n front bad rest : forall i a w,
  Forall (classifiable env predict) front ->
  decodes env bad = false ->
  exists w', classifyFrom env predict n i (front ++ bad :: rest) a w
             = Pending w' /\
    batchProgress w' = (i + length front + 1, n)%nat /\
    isBatchProcessing w' = isBatchProcessing w /\
    classifiedImages w' = classifiedImages w /\
    (forall a0, evAlert a0 ∉ events w -> evAlert a0 ∉ events w').
Proof.
  induction front as [|image front IH]; intros i a w Hall Hbad; simpl.
  - unfold bind.
    destruct (classifyImage_pending env predict n i bad a w Hbad)
      as (w' & -> & Hprog & Hbusy & Hcls & Hev).
    exists w'. split; [reflexivity|].
    rewrite Hprog, Nat.add_0_r. repeat split; auto.
    intros a0 Hno. rewrite Hev. rewrite elem_of_app, list_elem_of_singleton.
    intros [?|?]; [tauto | discriminate].
  - apply Forall_cons in Hall as [[Hdec [probabilities Hpred]] Hrest].
    unfold bind.
    rewrite (classifyImage_returns _ _ _ _ _ _ _ _ Hdec Hpred).
    destruct (IH (S i) (recordItem a (itemOf env probabilities image
                                        (now env (reads w))))
                 (afterItem n i (itemOf env probabilities image
                                   (now env (reads w))) w) Hrest Hbad)
      as (w' & -> & Hprog & Hbusy & Hcls & Hev).
    exists w'. split; [reflexivity|].
    rewrite Hprog.
    split; [simpl; f_equal; lia|].
    split; [exact Hbusy|]. split; [exact Hcls|].
    intros a0 Hno. apply Hev. simpl.
    rewrite elem_of_app. intros [?|Hin]; [tauto|].
    unfold itemEvents in Hin.
    repeat (apply elem_of_cons in Hin as [Hin|Hin]; [discriminate|]).
    inversion Hin.
Qed.

(** ** The arrays after the loop *)

Lemma foldl_recordItem_processed items : forall a,
  processedImages (foldl recordItem a items) = processedImages a ++ items.
Proof.
  induction items as [|item items IH]; intros a; simpl.
  - rewrite app_nil_r. reflexivity.
  - rewrite IH. unfold recordItem.
    destruct (route _ _); simpl; rewrite <- app_assoc; reflexivity.
Qed.

Lemma foldl_recordItem_images c items : forall a,
  imagesOf c (foldl recordItem a items)
  = imagesOf c a ++
    map file (filter (fun item =>
      route (confidence item) (classification item) = c) items).
Proof.
  induction items as [|item items IH]; intros a; simpl.
  - rewrite app_nil_r. reflexivity.
  - rewrite IH. unfold recordItem.
    rewrite filter_cons.
    destruct (decide _) as [Heq|Hne].
    + rewrite Heq. destruct c; simpl; rewrite <- app_assoc; reflexivity.
    + destruct (route _ _), c; simpl; try reflexivity; congruence.
Qed.

(** ** The claims on the loop *)

(** C1.  The destination of an item depends on its confidence and its
    label only: confidence at least 1 and a label that is the word normal
    up to case give the normal array; confidence at least 1 and any other
    label give the theft array; a confidence below 1 gives the unidentified
    array whatever the label, and so does any confidence that is not at
    least 1.  In a loop that returns, each of the three arrays holds
    exactly the files of the items routed to it, in order. *)
Theorem routing_by_confidence_and_label :
  (forall confidence label,
     Num.ge confidence Num.one = true ->
     Str.caseless_eqb label "normal" = true ->
     route confidence label = normal) /\
  (forall confidence label,
     Num.ge confidence Num.one = true ->
     Str.caseless_eqb label "normal" = false ->
     route confidence label = theft) /\
  (forall confidence label,
     Num.lt confidence Num.one = true ->
     route confidence label = unidentified) /\
  (forall confidence label,
     Num.ge confidence Num.one = false ->
     route confidence label = unidentified) /\
  (forall env predict images w a' w',
     classifyFrom env predict (length images) 0 images noArrays w
     = Returned a' w' ->
     forall c,
       imagesOf c a'
       = map file (filter (fun item =>
           route (confidence item) (classification item) = c)
           (processedImages a'))).
Proof.
  split; [exact route_normal|]. split; [exact route_theft|].
  split; [exact route_unidentified|].
  split; [intros confidence label H; unfold route; rewrite H; reflexivity|].
  intros env predict images w a' w' Hrun c.
  apply classifyFrom_returned in Hrun as (items & _ & _ & _ & -> & _).
  rewrite foldl_recordItem_images, foldl_recordItem_processed.
  destruct c; reflexivity.
Qed.

Lemma routing_by_confidence_and_label_witness :
  route Num.one "NORMAL" = normal /\
  route Num.one "tampered" = theft /\
  route (Finite (999999 # 1000000)) "normal" = unidentified /\
  route NaN "normal" = unidentified /\
  normalImages sampleArrays = [png "a"] /\
  theftImages sampleArrays = [png "b"] /\
  unidentifiedImages sampleArrays = [png "c"].
Proof.
  assert (classifyFrom sampleEnv samplePredict (length sampleImages) 0
            sampleImages noArrays sampleWorld
          = Returned sampleArrays sampleLoopEnd) as Hrun
    by (vm_compute; reflexivity).
  destruct routing_by_confidence_and_label as (Hn & Ht & Hu & He & Harr).
  specialize (Harr _ _ _ _ _ _ Hrun).
  split; [apply Hn; reflexivity|].
  split; [apply Ht; reflexivity|].
  split; [apply Hu; reflexivity|].
  split; [apply He; reflexivity|].
  split; [|split].
  - etrans; [exact (Harr normal) | reflexivity].
  - etrans; [exact (Harr theft) | reflexivity].
  - etrans; [exact (Harr unidentified) | reflexivity].
Defined.

(** C2.  A loop over a non-empty list of images that all decode and are
    all accepted by the model returns; [processedImages] then has one item
    per image, as many items as images, item [i] is the item of image [i],
    and the progress is (n, n) for n the number of images. *)
Theorem one_result_per_input_in_order
    (env : Env) (predict : Tensor4D -> option (list number))
    (images : list File) (w : World) :
  images <> [] ->
  Forall (classifiable env predict) images ->
  exists a' w',
    classifyFrom env predict (length images) 0 images noArrays w
    = Returned a' w' /\
    length (processedImages a') = length images /\
    current w' = length images /\
    total w' = length images /\
    (forall i, file <$> processedImages a' !! i = images !! i) /\
    Forall (classifiedBy env predict) (processedImages a').
Proof.
  intros Hne Hall.
  destruct (classifyFrom_returns env predict (length images) images 0
              noArrays w Hall) as (a' & w' & Hrun).
  exists a', w'. split; [exact Hrun|].
  apply classifyFrom_returned in Hrun
    as (items & Hfiles & Hby & _ & -> & _ & Hprog & _).
  rewrite foldl_recordItem_processed. simpl.
  unfold current, total. rewrite (Hprog Hne). simpl.
  split; [rewrite <- Hfiles, length_map; reflexivity|].
  repeat split; auto.
  intros i. rewrite <- Hfiles, list_lookup_fmap. reflexivity.
Qed.

Lemma one_result_per_input_in_order_witness :
  exists a' w',
    classifyFrom sampleEnv samplePredict 3 0 sampleImages noArrays sampleWorld
    = Returned a' w' /\
    length (processedImages a') = 3%nat /\
    current w' = 3%nat /\ total w' = 3%nat /\
    (forall i, file <$> processedImages a' !! i = sampleImages !! i).
Proof.
  assert (sampleImages <> []) as Hne by discriminate.
  assert (Forall (classifiable sampleEnv samplePredict) sampleImages) as Hall.
  { repeat constructor; simpl; eauto. }
  destruct (one_result_per_input_in_order sampleEnv samplePredict
              sampleImages sampleWorld Hne Hall)
    as (a' & w' & H1 & H2 & H3 & H4 & H5 & _).
  exists a', w'. auto.
Defined.

(** ** Progress against completed items *)

Lemma completed_app evs1 evs2 :
  completed (evs1 ++ evs2) = (completed evs1 + completed evs2)%nat.
Proof. unfold completed. rewrite filter_app, length_app. reflexivity. Qed.

Lemma completed_itemEvents n i item : completed (itemEvents n i item) = 1%nat.
Proof. reflexivity. Qed.

Lemma classifyImage_interrupted env predict n i image a w w' :
  classifyImage env predict n i image a w = Thrown w' \/
  classifyImage env predict n i image a w = Pending w' ->
  batchProgress w' = (i + 1, n)%nat /\
  completed (events w') = completed (events w).
Proof.
  unfold classifyImage, preprocessImage, predictData, bind. simpl.
  destruct (decodes env image); simpl.
  - destruct (predict (expandDims (normalized image))); simpl.
    + intros [H|H]; discriminate.
    + intros [H|H]; [|discriminate]. injection H as <-. simpl.
      split; [reflexivity|].
      rewrite !completed_app. simpl. unfold completed. simpl. lia.
  - intros [H|H]; [discriminate|]. injection H as <-. simpl.
    split; [reflexivity|].
    rewrite !completed_app. unfold completed. simpl. lia.
Qed.

Lemma classifyFrom_interrupted env predict n images : forall i a w w',
  classifyFrom env predict n i images a w = Thrown w' \/
  classifyFrom env predict n i images a w = Pending w' ->
  exists k, (k < length images)%nat /\
    batchProgress w' = (i + k + 1, n)%nat /\
    completed (events w') = (completed (events w) + k)%nat.
Proof.
  induction images as [|image rest IH]; intros i a w w' H; simpl in H.
  - destruct H; discriminate.
  - unfold bind in H.
    destruct (classifyImage env predict n i image a w) as [a1 w1|w1|w1]
      eqn:Hstep.
    + apply classifyImage_returned in Hstep as (probabilities & _ & _ & -> & ->).
      apply IH in H as (k & Hk & Hprog & Hdone).
      exists (S k). simpl. split; [lia|].
      rewrite Hprog, Hdone. simpl.
      rewrite completed_app, completed_itemEvents.
      split; [f_equal|]; lia.
    + assert (w' = w1) as -> by (destruct H; congruence).
      destruct (classifyImage_interrupted env predict n i image a w w1)
        as [Hprog Hdone]; [auto|].
      exists 0%nat. simpl. rewrite Hprog, Hdone, !Nat.add_0_r.
      split; [lia|]. auto.
    + assert (w' = w1) as -> by (destruct H; congruence).
      destruct (classifyImage_interrupted env predict n i image a w w1)
        as [Hprog Hdone]; [auto|].
      exists 0%nat. simpl. rewrite Hprog, Hdone, !Nat.add_0_r.
      split; [lia|]. auto.
Qed.

(** C4, as the code has it.  In a loop that returns, the events of each
    item are, in this order and before those of the next item: the
    progress is set to (i + 1, n), the preprocessor runs, the model
    predicts, the image is pushed on the array of its category, the item
    is appended to [processedImages], the callback [onImageClassified] is
    called.  The progress is therefore the number of items started: in a
    loop that stops at an item it is one more than the number of items
    appended since the loop began. *)
Theorem progress_first_then_classify_then_callback
    (env : Env) (predict : Tensor4D -> option (list number))
    (images : list File) (w : World) :
  (forall a' w',
     classifyFrom env predict (length images) 0 images noArrays w
     = Returned a' w' ->
     events w' = events w ++
                 batchEvents (length images) 0 (processedImages a')) /\
  (forall w',
     classifyFrom env predict (length images) 0 images noArrays w = Thrown w'
     \/ classifyFrom env predict (length images) 0 images noArrays w
        = Pending w' ->
     current w' = (completed (events w') - completed (events w) + 1)%nat /\
     total w' = length images).
Proof.
  split.
  - intros a' w' Hrun.
    apply classifyFrom_returned in Hrun as (items & _ & _ & _ & -> & -> & _).
    rewrite foldl_recordItem_processed. reflexivity.
  - intros w' Hrun.
    apply classifyFrom_interrupted in Hrun as (k & _ & Hprog & Hdone).
    unfold current, total. rewrite Hprog, Hdone. simpl. split; lia.
Qed.

Lemma progress_first_then_classify_then_callback_witness :
  events sampleLoopEnd
  = batchEvents 3 0 (processedImages sampleArrays) /\
  (forall w',
     classifyFrom sampleEnv rejectingPredict 3 0 sampleImages noArrays
       sampleWorld = Thrown w' ->
     current w' = 2%nat /\ total w' = 3%nat).
Proof.
  destruct (progress_first_then_classify_then_callback sampleEnv samplePredict
              sampleImages sampleWorld) as [Hret _].
  destruct (progress_first_then_classify_then_callback sampleEnv
              rejectingPredict sampleImages sampleWorld) as [_ Hstop].
  split.
  - apply (Hret sampleArrays sampleLoopEnd). vm_compute. reflexivity.
  - intros w' Hrun. destruct (Hstop w' (or_introl Hrun)) as [Hcur Htot].
    split; [|exact Htot]. rewrite Hcur.
    vm_compute in Hrun. injection Hrun as <-. reflexivity.
Defined.

(** C4 as it is worded fails: the events of a run are not in the order
    that updates the progress after the append, and when the model
    rejects the second of three images the progress reads 2 although a
    single item has been classified. *)
Lemma progress_is_not_updated_after_the_append :
  ~ (forall env predict images w a' w',
       classifyFrom env predict (length images) 0 images noArrays w
       = Returned a' w' ->
       events w' = events w ++
                   specBatchEvents (length images) 0 (processedImages a')) /\
  (exists w',
     classifyFrom sampleEnv rejectingPredict 3 0 sampleImages noArrays
       sampleWorld = Thrown w' /\
     current w' = 2%nat /\ completed (events w') = 1%nat).
Proof.
  split.
  - intros H.
    specialize (H sampleEnv samplePredict sampleImages sampleWorld
                  sampleArrays sampleLoopEnd).
    assert (classifyFrom sampleEnv samplePredict (length sampleImages) 0
              sampleImages noArrays sampleWorld
            = Returned sampleArrays sampleLoopEnd) as Hrun
      by (vm_compute; reflexivity).
    apply H in Hrun. vm_compute in Hrun. discriminate.
  - eexists. split; [vm_compute; reflexivity|]. split; reflexivity.
Qed.

(** ** File names *)

Module NameFacts.

Lemma no_underscore_digit d s :
  Str.no_underscore (String (pretty_N_char d) s) = Str.no_underscore s.
Proof. unfold pretty_N_char. repeat case_match; reflexivity. Qed.

Lemma no_underscore_go x : forall s,
  Str.no_underscore s = true -> Str.no_underscore (pretty_N_go x s) = true.
Proof.
  induction (N.lt_wf_0 x) as [x _ IH]. intros s Hs.
  destruct (decide (x = 0)%N) as [->|Hx].
  - rewrite pretty_N_go_0. exact Hs.
  - rewrite pretty_N_go_step by lia.
    apply IH; [apply N.div_lt; lia|].
    rewrite no_underscore_digit. exact Hs.
Qed.

Lemma no_underscore_N (x : N) : Str.no_underscore (pretty x) = true.
Proof.
  unfold pretty, pretty_N. case_decide; [reflexivity|].
  apply no_underscore_go. reflexivity.
Qed.

Lemma no_underscore_nat (n : nat) : Str.no_underscore (pretty n) = true.
Proof. apply no_underscore_N. Qed.

Lemma no_underscore_Z (z : Z) : Str.no_underscore (pretty z) = true.
Proof.
  destruct z as [|q|q]; [reflexivity|apply no_underscore_N|].
  change (pretty (Z.neg q)) with ("-" +:+ pretty (N.pos q)).
  simpl. apply no_underscore_N.
Qed.

(** Two strings cut at their first underscore agree part by part. *)
Lemma split_at_underscore a : forall a' b b',
  Str.no_underscore a = true -> Str.no_underscore a' = true ->
  a +:+ String "_" b = a' +:+ String "_" b' -> a = a' /\ b = b'.
Proof.
  induction a as [|x a IH]; intros [|y a'] b b' Ha Ha' H; simpl in *.
  - injection H as <-. auto.
  - injection H as <- _. rewrite Ascii.eqb_refl in Ha'. discriminate.
  - injection H as -> _. rewrite Ascii.eqb_refl in Ha. discriminate.
  - injection H as <- H.
    apply andb_prop in Ha as [_ Ha]. apply andb_prop in Ha' as [_ Ha'].
    destruct (IH _ _ _ Ha Ha' H) as [-> ->]. auto.
Qed.

Lemma string_length_app (a b : string) :
  String.length (a +:+ b) = (String.length a + String.length b)%nat.
Proof.
  induction a as [|x a IH]; [reflexivity|].
  change (S (String.length (a +:+ b))
          = S (String.length a + String.length b)).
  rewrite IH. reflexivity.
Qed.

Lemma string_app_inv_tail a : forall a' b, a +:+ b = a' +:+ b -> a = a'.
Proof.
  induction a as [|x a IH]; intros [|y a'] b H; simpl in *.
  - reflexivity.
  - apply (f_equal String.length) in H.
    rewrite !string_length_app in H. simpl in H. lia.
  - apply (f_equal String.length) in H.
    rewrite !string_length_app in H. simpl in H. lia.
  - injection H as <- H. f_equal. eauto.
Qed.

Lemma string_app_assoc (a b c : string) : (a +:+ b) +:+ c = a +:+ b +:+ c.
Proof.
  induction a as [|x a IH]; [reflexivity|].
  change (String x ((a +:+ b) +:+ c) = String x (a +:+ b +:+ c)).
  rewrite IH. reflexivity.
Qed.

Lemma startsWith_app a b : Str.startsWith a (a +:+ b) = true.
Proof.
  induction a as [|x a IH]; [reflexivity|].
  change (Ascii.eqb x x && Str.startsWith a (a +:+ b) = true).
  rewrite Ascii.eqb_refl. exact IH.
Qed.

(** The clock value and the position can be read back from a name. *)
Lemma fileName_inj folder t t' i i' :
  fileName folder t i = fileName folder t' i' -> t = t' /\ i = i'.
Proof.
  unfold fileName. intros H.
  apply (inj (String.append folder)) in H. simpl in H. injection H as H.
  apply split_at_underscore in H as [Ht Hi]; try apply no_underscore_Z.
  apply string_app_inv_tail in Hi.
  split; [apply (inj pretty), Ht | apply (inj pretty), Hi].
Qed.

Lemma fileName_ends_with_jpg folder t i :
  Str.ends_with ".jpg" (fileName folder t i).
Proof.
  exists (folder +:+ "_" +:+ pretty t +:+ "_" +:+ pretty i).
  unfold fileName. rewrite !string_app_assoc. reflexivity.
Qed.

Lemma pathOf_inj c t t' i i' :
  pathOf c t i = pathOf c t' i' -> t = t' /\ i = i'.
Proof.
  unfold pathOf. intros H.
  apply (inj (String.append (folderOf c))) in H. simpl in H.
  injection H as H. exact (fileName_inj _ _ _ _ _ H).
Qed.

Lemma pathOf_ends_with_jpg c t i : Str.ends_with ".jpg" (pathOf c t i).
Proof.
  destruct (fileName_ends_with_jpg (folderOf c) t i) as [front Hfront].
  exists (folderOf c +:+ "/" +:+ front).
  unfold pathOf. rewrite Hfront, !string_app_assoc. reflexivity.
Qed.

Lemma pathOf_startsWith c c' t i :
  Str.startsWith (folderOf c' +:+ "/") (pathOf c t i)
  = bool_decide (c' = c).
Proof.
  destruct (decide (c' = c)) as [->|Hne].
  - rewrite bool_decide_eq_true_2 by reflexivity.
    unfold pathOf. rewrite <- string_app_assoc. apply startsWith_app.
  - rewrite bool_decide_eq_false_2 by exact Hne.
    destruct c, c'; try congruence; reflexivity.
Qed.

Lemma pathOf_not_folder c c' t i : pathOf c t i <> folderOf c' +:+ "/".
Proof. destruct c, c'; discriminate. Qed.

End NameFacts.

(** ** Entries of the archive *)

Lemma filesOf_insert_file (zip : Zip) p f :
  zip !! p = None ->
  size (filesOf (<[p := FileData f]> zip)) = S (size (filesOf zip)).
Proof.
  intros Hp. unfold filesOf.
  rewrite map_filter_insert_True by reflexivity.
  apply map_size_insert_None, map_lookup_filter_None_2. auto.
Qed.

Lemma filesIn_insert_file_in (zip : Zip) folder p f :
  zip !! p = None -> Str.startsWith (folder +:+ "/") p = true ->
  size (filesIn folder (<[p := FileData f]> zip))
  = S (size (filesIn folder zip)).
Proof.
  intros Hp Hin. unfold filesIn.
  rewrite map_filter_insert_True by (split; [reflexivity | exact Hin]).
  apply map_size_insert_None, map_lookup_filter_None_2. auto.
Qed.

Lemma filesIn_insert_out (zip : Zip) folder p e :
  Str.startsWith (folder +:+ "/") p = false ->
  filesIn folder (<[p := e]> zip) = filesIn folder zip.
Proof.
  intros Hout. unfold filesIn.
  apply map_filter_insert_not. intros y [_ Hin]. simpl in Hin. congruence.
Qed.

Lemma filesOf_insert_folder (zip : Zip) p :
  (forall f, zip !! p <> Some (FileData f)) ->
  filesOf (<[p := Folder]> zip) = filesOf zip.
Proof.
  intros Hp. unfold filesOf.
  apply map_filter_insert_not'; [simpl; discriminate|].
  intros [|f] Hy; [simpl; discriminate | destruct (Hp f Hy)].
Qed.

Lemma filesIn_insert_folder (zip : Zip) folder p :
  (forall f, zip !! p <> Some (FileData f)) ->
  filesIn folder (<[p := Folder]> zip) = filesIn folder zip.
Proof.
  intros Hp. unfold filesIn.
  apply map_filter_insert_not'; [simpl; intros [? _]; discriminate|].
  intros [|f] Hy; [simpl; intros [? _]; discriminate | destruct (Hp f Hy)].
Qed.

(** ** Reading the clock *)

Lemma tick_0 w : tick 0 w = w.
Proof. destruct w; reflexivity. Qed.

Lemma tick_tick k j w : tick k (tick j w) = tick (k + j) w.
Proof. unfold tick. simpl. f_equal. lia. Qed.

Lemma dateNow_returns env w :
  dateNow env w = Returned (now env (reads w)) (tick 1 w).
Proof. reflexivity. Qed.

(** ** Filling one folder *)

Lemma pathOf_category c c' t t' j j' :
  pathOf c t j = pathOf c' t' j' -> c = c'.
Proof.
  intros H.
  pose proof (NameFacts.pathOf_startsWith c c t j) as Hin.
  rewrite bool_decide_eq_true_2 in Hin by reflexivity.
  rewrite H, NameFacts.pathOf_startsWith in Hin.
  exact (bool_decide_eq_true_1 _ Hin).
Qed.

Lemma freshFrom_insert c index t f (zip : Zip) :
  freshFrom c index zip ->
  freshFrom c (S index) (<[pathOf c t index := FileData f]> zip).
Proof.
  intros Hfresh t' j Hj.
  rewrite lookup_insert_ne; [apply Hfresh; lia|].
  intros Heq. apply NameFacts.pathOf_inj in Heq as [_ Heq]. lia.
Qed.

Lemma addImages_returns env c images : forall index (zip : Zip) w,
  exists zip',
    addImages env (folderOf c) index images zip w
    = Returned zip' (tick (length images) w) /\
    (forall p, zip' !! p = Some Folder -> zip !! p = Some Folder) /\
    (forall p, zip !! p = Some Folder -> (forall t j, p <> pathOf c t j) ->
       zip' !! p = Some Folder) /\
    (forall p f, zip' !! p = Some (FileData f) ->
       zip !! p = Some (FileData f) \/
       (f ∈ images /\ exists t j, p = pathOf c t j)) /\
    (freshFrom c index zip ->
       size (filesOf zip') = (size (filesOf zip) + length images)%nat /\
       forall c', size (filesIn (folderOf c') zip')
                  = (size (filesIn (folderOf c') zip)
                     + if bool_decide (c' = c) then length images else 0)%nat).
Proof.
  induction images as [|image rest IH]; intros index zip w.
  - exists zip. simpl. rewrite tick_0. split; [reflexivity|].
    split; [tauto|]. split; [tauto|]. split; [auto|].
    intros _. split; [lia|]. intros c'. destruct (bool_decide _); lia.
  - simpl. unfold bind. rewrite dateNow_returns.
    set (t := now env (reads w)).
    change (zipFile (folderOf c) (fileName (folderOf c) t index) image zip)
      with (<[pathOf c t index := FileData image]> zip).
    destruct (IH (S index) (<[pathOf c t index := FileData image]> zip)
                (tick 1 w)) as (zip' & -> & Hfolder & Hkept & Hfiles & Hcount).
    exists zip'. rewrite tick_tick.
    replace (length rest + 1)%nat with (S (length rest)) by lia.
    split; [reflexivity|]. split; [|split; [|split]].
    + intros p Hp. apply Hfolder in Hp.
      apply lookup_insert_Some in Hp as [[_ ?]|[_ Hp]]; [discriminate|exact Hp].
    + intros p Hp Hno. apply Hkept; [|exact Hno].
      rewrite lookup_insert_ne; [exact Hp|]. intros Heq. exact (Hno _ _ (eq_sym Heq)).
    + intros p f Hp. apply Hfiles in Hp as [Hp|[Hin Hpath]].
      * apply lookup_insert_Some in Hp as [[<- Heq]|[_ Hp]]; [|auto].
        injection Heq as <-. right. split; [left|eauto].
      * right. split; [right; exact Hin | exact Hpath].
    + intros Hfresh.
      destruct (Hcount (freshFrom_insert _ _ _ _ _ Hfresh)) as [Hall Hin].
      pose proof (Hfresh t index (le_n _)) as Hnone.
      split.
      * rewrite Hall, filesOf_insert_file by exact Hnone. lia.
      * intros c'. rewrite Hin.
        destruct (decide (c' = c)) as [->|Hne].
        -- rewrite bool_decide_eq_true_2 by reflexivity.
           rewrite filesIn_insert_file_in; [lia|exact Hnone|].
           rewrite NameFacts.pathOf_startsWith.
           apply bool_decide_eq_true_2. reflexivity.
        -- rewrite bool_decide_eq_false_2 by exact Hne.
           rewrite filesIn_insert_out; [lia|].
           rewrite NameFacts.pathOf_startsWith.
           apply bool_decide_eq_false_2. exact Hne.
Qed.

Lemma folderOf_inj c c' : folderOf c +:+ "/" = folderOf c' +:+ "/" -> c = c'.
Proof. destruct c, c'; (reflexivity || discriminate). Qed.

Lemma onlyFrom_empty : onlyFrom [] ∅.
Proof. intros p e Hp. rewrite lookup_empty in Hp. discriminate. Qed.

Lemma onlyFrom_weaken c cs zip : onlyFrom cs zip -> onlyFrom (c :: cs) zip.
Proof.
  intros Hzip p e Hp.
  destruct (Hzip p e Hp) as [[-> (c0 & Hc0 & ->)]|[Hf (c0 & t & j & Hc0 & ->)]].
  - left. split; [reflexivity|]. exists c0. split; [right|]; auto.
  - right. split; [exact Hf|]. exists c0, t, j. split; [right|]; auto.
Qed.

Lemma onlyFrom_fresh c cs zip :
  onlyFrom cs zip -> c ∉ cs -> freshFrom c 0 zip.
Proof.
  intros Hzip Hc t j _.
  destruct (zip !! pathOf c t j) as [e|] eqn:Hp; [|reflexivity].
  destruct (Hzip _ _ Hp) as [[_ (c0 & _ & Heq)]|[_ (c0 & t0 & j0 & Hc0 & Heq)]].
  - destruct (NameFacts.pathOf_not_folder _ _ _ _ Heq).
  - apply pathOf_category in Heq as ->. contradiction.
Qed.

Lemma onlyFrom_no_folder c cs zip :
  onlyFrom cs zip -> c ∉ cs -> zip !! (folderOf c +:+ "/") = None.
Proof.
  intros Hzip Hc.
  destruct (zip !! (folderOf c +:+ "/")) as [e|] eqn:Hp; [|reflexivity].
  destruct (Hzip _ _ Hp) as [[_ (c0 & Hc0 & Heq)]|[_ (c0 & t0 & j0 & _ & Heq)]].
  - apply folderOf_inj in Heq as ->. contradiction.
  - symmetry in Heq. destruct (NameFacts.pathOf_not_folder _ _ _ _ Heq).
Qed.

(** What one of the three blocks does to the archive. *)
Lemma addFolder_returns env c cs images (zip : Zip) w :
  onlyFrom cs zip -> c ∉ cs ->
  exists zip',
    addFolder env c images zip w = Returned zip' (tick (length images) w) /\
    onlyFrom (c :: cs) zip' /\
    (zip' !! (folderOf c +:+ "/") = Some Folder <-> images <> []) /\
    (forall c', c' <> c ->
       zip' !! (folderOf c' +:+ "/") = Some Folder <->
       zip !! (folderOf c' +:+ "/") = Some Folder) /\
    (forall p f, zip' !! p = Some (FileData f) ->
       zip !! p = Some (FileData f) \/
       (f ∈ images /\ exists t j, p = pathOf c t j)) /\
    size (filesOf zip') = (size (filesOf zip) + length images)%nat /\
    (forall c', size (filesIn (folderOf c') zip')
                = (size (filesIn (folderOf c') zip)
                   + if bool_decide (c' = c) then length images else 0)%nat).
Proof.
  intros Hzip Hc. unfold addFolder.
  pose proof (onlyFrom_no_folder _ _ _ Hzip Hc) as Hnofolder.
  destruct images as [|image rest].
  - exists zip. simpl. rewrite tick_0. split; [reflexivity|].
    split; [apply onlyFrom_weaken, Hzip|].
    split; [rewrite Hnofolder; split; [discriminate|congruence]|].
    split; [tauto|]. split; [auto|]. split; [lia|].
    intros c'. destruct (bool_decide _); lia.
  - change (0 <? length (image :: rest))%nat with true. cbv iota.
    set (images := image :: rest).
    assert (freshFrom c 0 (zipFolder (folderOf c) zip)) as Hfresh.
    { intros t j Hj. unfold zipFolder.
      rewrite lookup_insert_ne
        by (intros Heq; symmetry in Heq;
            exact (NameFacts.pathOf_not_folder _ _ _ _ Heq)).
      exact (onlyFrom_fresh _ _ _ Hzip Hc t j Hj). }
    assert (forall f, zip !! (folderOf c +:+ "/") <> Some (FileData f)) as Hnof
      by (intros f; rewrite Hnofolder; discriminate).
    destruct (addImages_returns env c images 0 (zipFolder (folderOf c) zip) w)
      as (zip' & -> & Hfolder & Hkept & Hfiles & Hcount).
    destruct (Hcount Hfresh) as [Hall Hin].
    exists zip'. split; [reflexivity|].
    split; [|split; [|split; [|split; [|split]]]].
    + intros p [|f] Hp.
      * left. split; [reflexivity|].
        apply Hfolder in Hp. unfold zipFolder in Hp.
        apply lookup_insert_Some in Hp as [[<- _]|[_ Hp]].
        -- exists c. split; [left|reflexivity].
        -- destruct (Hzip _ _ Hp)
             as [[_ (c0 & Hc0 & ->)]|[Hf _]]; [|discriminate].
           exists c0. split; [right; exact Hc0 | reflexivity].
      * right. split; [reflexivity|].
        apply Hfiles in Hp as [Hp|[_ (t & j & ->)]].
        -- unfold zipFolder in Hp.
           apply lookup_insert_Some in Hp as [[_ ?]|[_ Hp]]; [discriminate|].
           destruct (Hzip _ _ Hp)
             as [[? _]|[_ (c0 & t & j & Hc0 & ->)]]; [discriminate|].
           exists c0, t, j. split; [right; exact Hc0 | reflexivity].
        -- exists c, t, j. split; [left|reflexivity].
    + split; [discriminate|]. intros _.
      apply Hkept.
      * unfold zipFolder. apply lookup_insert_eq.
      * intros t j Heq. symmetry in Heq.
        exact (NameFacts.pathOf_not_folder _ _ _ _ Heq).
    + intros c' Hne. split.
      * intros Hp. apply Hfolder in Hp. unfold zipFolder in Hp.
        apply lookup_insert_Some in Hp as [[Heq _]|[_ Hp]]; [|exact Hp].
        apply folderOf_inj in Heq. congruence.
      * intros Hp. apply Hkept.
        -- unfold zipFolder. rewrite lookup_insert_ne; [exact Hp|].
           intros Heq. apply folderOf_inj in Heq. congruence.
        -- intros t j Heq. symmetry in Heq.
           exact (NameFacts.pathOf_not_folder _ _ _ _ Heq).
    + intros p f Hp. apply Hfiles in Hp as [Hp|Hp]; [|auto].
      unfold zipFolder in Hp.
      apply lookup_insert_Some in Hp as [[_ ?]|[_ Hp]]; [discriminate|auto].
    + rewrite Hall. unfold zipFolder.
      rewrite filesOf_insert_folder by exact Hnof. reflexivity.
    + intros c'. rewrite Hin. unfold zipFolder.
      rewrite filesIn_insert_folder by exact Hnof. reflexivity.
Qed.

(** ** The whole archive *)

Lemma buildZip_returns env a w :
  exists zip,
    buildZip env a w
    = Returned zip (tick (length (normalImages a) + length (theftImages a)
                          + length (unidentifiedImages a)) w) /\
    onlyFrom [unidentified; theft; normal] zip /\
    (forall c, zip !! (folderOf c +:+ "/") = Some Folder <->
               imagesOf c a <> []) /\
    (forall p f, zip !! p = Some (FileData f) ->
       exists c t j, f ∈ imagesOf c a /\ p = pathOf c t j) /\
    size (filesOf zip)
    = (length (normalImages a) + length (theftImages a)
       + length (unidentifiedImages a))%nat /\
    (forall c, size (filesIn (folderOf c) zip) = length (imagesOf c a)).
Proof.
  unfold buildZip, bind.
  destruct (addFolder_returns env normal [] (normalImages a) ∅ w
              onlyFrom_empty) as (z1 & -> & Hz1 & Hn1 & Ho1 & Hf1 & Hs1 & Hc1);
    [apply not_elem_of_nil|].
  destruct (addFolder_returns env theft [normal] (theftImages a) z1
              (tick (length (normalImages a)) w) Hz1)
    as (z2 & -> & Hz2 & Hn2 & Ho2 & Hf2 & Hs2 & Hc2);
    [rewrite list_elem_of_singleton; discriminate|].
  destruct (addFolder_returns env unidentified [theft; normal]
              (unidentifiedImages a) z2
              (tick (length (theftImages a))
                 (tick (length (normalImages a)) w)) Hz2)
    as (z3 & -> & Hz3 & Hn3 & Ho3 & Hf3 & Hs3 & Hc3).
  { rewrite !elem_of_cons, elem_of_nil.
    intros [?|[?|[]]]; discriminate. }
  exists z3. rewrite !tick_tick.
  split; [f_equal; f_equal; lia|]. split; [exact Hz3|].
  assert (size (filesOf (∅ : Zip)) = 0%nat) as Hempty
    by (unfold filesOf; rewrite map_filter_empty; apply map_size_empty).
  assert (forall folder, size (filesIn folder (∅ : Zip)) = 0%nat) as Hempty'
    by (intros; unfold filesIn; rewrite map_filter_empty; apply map_size_empty).
  split; [|split; [|split]].
  - intros [].
    + rewrite Ho3, Ho2 by discriminate. exact Hn1.
    + rewrite Ho3 by discriminate. exact Hn2.
    + exact Hn3.
  - intros p f Hp.
    apply Hf3 in Hp as [Hp|[Hin (t & j & ->)]];
      [|exists unidentified, t, j; auto].
    apply Hf2 in Hp as [Hp|[Hin (t & j & ->)]]; [|exists theft, t, j; auto].
    apply Hf1 in Hp as [Hp|[Hin (t & j & ->)]]; [|exists normal, t, j; auto].
    rewrite lookup_empty in Hp. discriminate.
  - rewrite Hs3, Hs2, Hs1, Hempty. lia.
  - intros c. rewrite Hc3, Hc2, Hc1, Hempty'.
    destruct c; simpl; lia.
Qed.

(** ** The whole of [processBatchImages] *)

Lemma processBatchImages_started env predict w :
  model env = Some predict -> batchImages w <> [] ->
  processBatchImages env w
  = tryCatchFinally
      (let! a := classifyFrom env predict (length (batchImages w)) 0
                   (batchImages w) noArrays in
       archiveAndRecord env a)
      (alert alertFailed)
      (setIsBatchProcessing false ;;; setBatchProgress 0 0)
      (started w).
Proof.
  intros Hmodel Hne. unfold processBatchImages. rewrite Hmodel.
  destruct (batchImages w) as [|image rest] eqn:Hbatch; [congruence|].
  simpl length. cbv beta iota. simpl Nat.eqb. cbv iota.
  unfold bind at 1 2. simpl. unfold started. rewrite Hbatch. reflexivity.
Qed.

(** The archive step throws only from the import or the serialization,
    after reading the clock; it has written no state by then. *)
Lemma archiveAndRecord_thrown env a w wt :
  archiveAndRecord env a w = Thrown wt -> exists k, wt = tick k w.
Proof.
  unfold archiveAndRecord, bind. rewrite dateNow_returns.
  destruct (importJSZip env); simpl.
  - destruct (buildZip_returns env a (tick 1 w)) as (zip & -> & _).
    destruct (generateAsync env zip); simpl.
    + discriminate.
    + intros H. injection H as <-. rewrite tick_tick. eauto.
  - intros H. injection H as <-. eauto.
Qed.

Lemma archiveAndRecord_returns env a w :
  importJSZip env = true -> (forall zip, generateAsync env zip = true) ->
  exists zip k w',
    buildZip env a (tick 1 w) = Returned zip (tick k (tick 1 w)) /\
    archiveAndRecord env a w = Returned tt w' /\
    downloads w'
    = downloads w ++ [(folderNameAt env (now env (reads w)) +:+ ".zip", zip)] /\
    classifiedImages w' = classifiedImages w ++ processedImages a /\
    batchImages w' = [] /\
    classifications w' = classifications w.
Proof.
  intros Himport Hgen.
  destruct (buildZip_returns env a (tick 1 w)) as (zip & Hzip & _).
  exists zip. eexists. eexists. split; [exact Hzip|].
  unfold archiveAndRecord, bind. rewrite dateNow_returns, Himport. simpl.
  rewrite Hzip, Hgen. simpl. split; [reflexivity|]. simpl. auto.
Qed.

(** A run in which nothing fails: the loop returns, the archive is built
    from its arrays and handed to the browser, the items are recorded. *)
Lemma processBatchImages_completes env predict w :
  allGoesWell env predict w ->
  exists a wl zip k w',
    classifyFrom env predict (length (batchImages w)) 0 (batchImages w)
      noArrays (started w) = Returned a wl /\
    buildZip env a (tick 1 wl) = Returned zip (tick k (tick 1 wl)) /\
    processBatchImages env w = Returned tt w' /\
    downloads w'
    = downloads w ++ [(folderNameAt env (now env (reads wl)) +:+ ".zip", zip)] /\
    classifiedImages w' = classifiedImages w ++ processedImages a /\
    batchImages w' = [] /\
    isBatchProcessing w' = false.
Proof.
  intros (Hmodel & Hne & Hall & Himport & Hgen).
  destruct (classifyFrom_returns env predict (length (batchImages w))
              (batchImages w) 0 noArrays (started w) Hall)
    as (a & wl & Hloop).
  destruct (archiveAndRecord_returns env a wl Himport Hgen)
    as (zip & k & wr & Hzip & Hrec & Hdl & Hcls & Hbatch & _).
  exists a, wl, zip, k.
  rewrite (processBatchImages_started env predict w Hmodel Hne).
  unfold tryCatchFinally, bind at 1. rewrite Hloop, Hrec.
  eexists. split; [reflexivity|]. split; [exact Hzip|].
  split; [reflexivity|]. simpl.
  apply classifyFrom_returned in Hloop
    as (items & _ & _ & _ & _ & _ & _ & _ & _ & Hcls' & _ & _ & _ & Hdl').
  rewrite Hdl, Hdl', Hcls, Hcls', Hbatch. simpl. auto.
Qed.

Lemma routed_lengths (items : list ClassifiedItem) :
  (length (filter (fun item =>
     route (confidence item) (classification item) = normal) items)
   + length (filter (fun item =>
       route (confidence item) (classification item) = theft) items)
   + length (filter (fun item =>
       route (confidence item) (classification item) = unidentified) items)
   = length items)%nat.
Proof.
  induction items as [|item items IH]; [reflexivity|].
  rewrite !filter_cons.
  destruct (route (confidence item) (classification item)); simpl; lia.
Qed.

(** ** Where each image is in the archive *)

Lemma addImages_keeps env c images : forall index (zip : Zip) w zip' w',
  addImages env (folderOf c) index images zip w = Returned zip' w' ->
  forall p, (forall t j, (index <= j)%nat -> p <> pathOf c t j) ->
  zip' !! p = zip !! p.
Proof.
  induction images as [|image rest IH]; intros index zip w zip' w' H p Hp;
    simpl in H.
  - injection H as <- _. reflexivity.
  - unfold bind in H. rewrite dateNow_returns in H.
    rewrite (IH _ _ _ _ _ H p) by (intros t j Hj; apply Hp; lia).
    change (zipFile (folderOf c)
              (fileName (folderOf c) (now env (reads w)) index) image zip)
      with (<[pathOf c (now env (reads w)) index := FileData image]> zip).
    apply lookup_insert_ne. intros Heq. exact (Hp _ _ (le_n _) (eq_sym Heq)).
Qed.

Lemma addImages_places env c images : forall index (zip : Zip) w zip' w',
  addImages env (folderOf c) index images zip w = Returned zip' w' ->
  forall j image, images !! j = Some image ->
  zip' !! pathOf c (now env (reads w + j)) (index + j) = Some (FileData image).
Proof.
  induction images as [|image rest IH]; intros index zip w zip' w' H j x Hj;
    simpl in H.
  - discriminate.
  - unfold bind in H. rewrite dateNow_returns in H.
    destruct j as [|j]; simpl in Hj.
    + injection Hj as <-. rewrite !Nat.add_0_r.
      rewrite (addImages_keeps _ _ _ _ _ _ _ _ H).
      * apply lookup_insert_eq.
      * intros t j Hj Heq. apply NameFacts.pathOf_inj in Heq as [_ Heq]. lia.
    + pose proof (IH _ _ _ _ _ H j x Hj) as Hplaced. simpl in Hplaced.
      replace (reads w + S j)%nat with (S (reads w + j)) by lia.
      replace (index + S j)%nat with (S (index + j)) by lia.
      exact Hplaced.
Qed.

Lemma addFolder_keeps env c images (zip : Zip) w zip' w' :
  addFolder env c images zip w = Returned zip' w' ->
  forall p, (forall t j, p <> pathOf c t j) -> p <> folderOf c +:+ "/" ->
  zip' !! p = zip !! p.
Proof.
  unfold addFolder. intros H p Hp Hfolder.
  destruct (0 <? length images)%nat.
  - rewrite (addImages_keeps _ _ _ _ _ _ _ _ H p) by (intros; apply Hp).
    unfold zipFolder. apply lookup_insert_ne. congruence.
  - injection H as <- _. reflexivity.
Qed.

Lemma addFolder_places env c images (zip : Zip) w zip' w' :
  addFolder env c images zip w = Returned zip' w' ->
  forall j image, images !! j = Some image ->
  zip' !! pathOf c (now env (reads w + j)) j = Some (FileData image).
Proof.
  unfold addFolder. intros H j image Hj.
  destruct images as [|image0 rest]; [discriminate|].
  change (0 <? length (image0 :: rest))%nat with true in H. cbv iota in H.
  exact (addImages_places _ _ _ _ _ _ _ _ H j image Hj).
Qed.

Lemma pathOf_other_category c c' t j :
  c <> c' ->
  (forall t' j', pathOf c t j <> pathOf c' t' j') /\
  pathOf c t j <> folderOf c' +:+ "/".
Proof.
  intros Hne. split.
  - intros t' j' Heq. apply pathOf_category in Heq. contradiction.
  - apply NameFacts.pathOf_not_folder.
Qed.

(** Image [j] of the array of category [c] is written in the folder of
    [c] under position [j] and the clock value read for it. *)
Lemma buildZip_places env a w zip w' :
  buildZip env a w = Returned zip w' ->
  forall c j image, imagesOf c a !! j = Some image ->
  zip !! pathOf c (now env (reads w + readsBefore c a + j)) j
  = Some (FileData image).
Proof.
  unfold buildZip, bind. intros H c j image Hj.
  destruct (addFolder_returns env normal [] (normalImages a) ∅ w
              onlyFrom_empty) as (z1 & Hz1 & Ho1 & _);
    [apply not_elem_of_nil|].
  rewrite Hz1 in H.
  destruct (addFolder_returns env theft [normal] (theftImages a) z1
              (tick (length (normalImages a)) w) Ho1)
    as (z2 & Hz2 & Ho2 & _);
    [rewrite list_elem_of_singleton; discriminate|].
  rewrite Hz2 in H.
  destruct c; simpl in Hj; simpl readsBefore.
  - rewrite (addFolder_keeps _ _ _ _ _ _ _ H), (addFolder_keeps _ _ _ _ _ _ _ Hz2);
      try (apply pathOf_other_category; discriminate).
    rewrite Nat.add_0_r. exact (addFolder_places _ _ _ _ _ _ _ Hz1 j image Hj).
  - rewrite (addFolder_keeps _ _ _ _ _ _ _ H);
      try (apply pathOf_other_category; discriminate).
    pose proof (addFolder_places _ _ _ _ _ _ _ Hz2 j image Hj) as Hplaced.
    simpl in Hplaced.
    replace (reads w + length (normalImages a) + j)%nat
      with (length (normalImages a) + reads w + j)%nat by lia.
    exact Hplaced.
  - pose proof (addFolder_places _ _ _ _ _ _ _ H j image Hj) as Hplaced.
    simpl in Hplaced.
    replace (reads w + (length (normalImages a) + length (theftImages a)) + j)%nat
      with (length (theftImages a) + (length (normalImages a) + reads w) + j)%nat
      by lia.
    exact Hplaced.
Qed.

Lemma addImages_entries env c images : forall index (zip : Zip) w zip' w',
  addImages env (folderOf c) index images zip w = Returned zip' w' ->
  forall p f, zip' !! p = Some (FileData f) ->
  zip !! p = Some (FileData f) \/
  exists j, images !! j = Some f /\
            p = pathOf c (now env (reads w + j)) (index + j).
Proof.
  induction images as [|image rest IH]; intros index zip w zip' w' H p f Hp;
    simpl in H.
  - injection H as <- _. auto.
  - unfold bind in H. rewrite dateNow_returns in H.
    destruct (IH _ _ _ _ _ H p f Hp) as [Hin|(j & Hj & ->)].
    + change (zipFile (folderOf c)
                (fileName (folderOf c) (now env (reads w)) index) image zip)
        with (<[pathOf c (now env (reads w)) index := FileData image]> zip)
        in Hin.
      apply lookup_insert_Some in Hin as [[<- Heq]|[_ Hin]]; [|auto].
      injection Heq as <-. right. exists 0%nat.
      rewrite !Nat.add_0_r. auto.
    + right. exists (S j). split; [exact Hj|]. simpl.
      replace (reads w + S j)%nat with (S (reads w + j)) by lia.
      replace (index + S j)%nat with (S (index + j)) by lia.
      reflexivity.
Qed.

Lemma addFolder_entries env c images (zip : Zip) w zip' w' :
  addFolder env c images zip w = Returned zip' w' ->
  forall p f, zip' !! p = Some (FileData f) ->
  zip !! p = Some (FileData f) \/
  exists j, images !! j = Some f /\ p = pathOf c (now env (reads w + j)) j.
Proof.
  unfold addFolder. intros H p f Hp.
  destruct (0 <? length images)%nat.
  - destruct (addImages_entries _ _ _ _ _ _ _ _ H p f Hp) as [Hin|Hin];
      [|right; exact Hin].
    unfold zipFolder in Hin.
    apply lookup_insert_Some in Hin as [[_ ?]|[_ Hin]]; [discriminate|auto].
  - injection H as <- _. auto.
Qed.

(** Every file entry of the archive is the entry written for one position
    of one of the three arrays, and holds the image of that position. *)
Lemma buildZip_entries env a w zip w' :
  buildZip env a w = Returned zip w' ->
  forall p f, zip !! p = Some (FileData f) ->
  exists c j, imagesOf c a !! j = Some f /\
              p = pathOf c (now env (reads w + readsBefore c a + j)) j.
Proof.
  unfold buildZip, bind. intros H p f Hp.
  destruct (addFolder_returns env normal [] (normalImages a) ∅ w
              onlyFrom_empty) as (z1 & Hz1 & Ho1 & _);
    [apply not_elem_of_nil|].
  rewrite Hz1 in H.
  destruct (addFolder_returns env theft [normal] (theftImages a) z1
              (tick (length (normalImages a)) w) Ho1)
    as (z2 & Hz2 & Ho2 & _);
    [rewrite list_elem_of_singleton; discriminate|].
  rewrite Hz2 in H.
  destruct (addFolder_entries _ _ _ _ _ _ _ H p f Hp) as [Hp2|(j & Hj & ->)].
  - destruct (addFolder_entries _ _ _ _ _ _ _ Hz2 p f Hp2)
      as [Hp1|(j & Hj & ->)].
    + destruct (addFolder_entries _ _ _ _ _ _ _ Hz1 p f Hp1)
        as [Hp0|(j & Hj & ->)].
      * rewrite lookup_empty in Hp0. discriminate.
      * exists normal, j. split; [exact Hj|]. simpl.
        rewrite Nat.add_0_r. reflexivity.
    + exists theft, j. split; [exact Hj|]. simpl. do 2 f_equal. lia.
  - exists unidentified, j. split; [exact Hj|]. simpl. do 2 f_equal. lia.
Qed.

(** ** The claims on the archive *)

(** C6.  Two names generated for one category differ as soon as the
    positions of the two images in the array of that category differ,
    whatever the two clock values, equal ones included.  So a folder
    filled from an array holds as many files as the array has images,
    whatever the clock returns: no entry replaces another. *)
Theorem names_in_a_category_are_distinct
    (env : Env) (c : Category) (images : list File) (w : World) :
  (forall t t' i j, i <> j ->
     fileName (folderOf c) t i <> fileName (folderOf c) t' j) /\
  exists zip,
    addFolder env c images ∅ w = Returned zip (tick (length images) w) /\
    size (filesOf zip) = length images /\
    size (filesIn (folderOf c) zip) = length images.
Proof.
  split.
  - intros t t' i j Hne Heq.
    apply NameFacts.fileName_inj in Heq as [_ Heq]. contradiction.
  - destruct (addFolder_returns env c [] images ∅ w onlyFrom_empty)
      as (zip & Hrun & _ & _ & _ & _ & Hall & Hin); [apply not_elem_of_nil|].
    exists zip. split; [exact Hrun|].
    rewrite Hall, (Hin c), bool_decide_eq_true_2 by reflexivity.
    unfold filesOf, filesIn. rewrite !map_filter_empty, map_size_empty.
    split; reflexivity.
Qed.

Lemma names_in_a_category_are_distinct_witness :
  fileName "normal" 1700000000000 0 <> fileName "normal" 1700000000000 1 /\
  exists zip,
    addFolder sampleEnv normal [png "a"; png "b"] ∅ sampleWorld
    = Returned zip (tick 2 sampleWorld) /\
    size (filesOf zip) = 2%nat.
Proof.
  destruct (names_in_a_category_are_distinct sampleEnv normal
              [png "a"; png "b"] sampleWorld)
    as [Hnames (zip & Hrun & Hsize & _)].
  split.
  - apply (Hnames 1700000000000%Z 1700000000000%Z 0%nat 1%nat). lia.
  - exists zip. split; [exact Hrun | exact Hsize].
Defined.

(** C7.  In a run in which nothing fails, with N images of which the
    loop pushes a on the normal array, b on the theft array and c on the
    unidentified array, a + b + c = N, the archive handed to the browser
    holds N files, the folder of each category holds as many files as its
    array has images, the folder entry of a category exists exactly when
    its array is not empty, and there is no other folder entry.  The
    arrays are those that the loop of this run returns, and each holds
    the files of the items that the routing sends to it. *)
Theorem archive_files_match_routing
    (env : Env) (predict : Tensor4D -> option (list number)) (w : World) :
  allGoesWell env predict w ->
  exists a wl zip download w',
    classifyFrom env predict (length (batchImages w)) 0 (batchImages w)
      noArrays (started w) = Returned a wl /\
    processBatchImages env w = Returned tt w' /\
    downloads w' = downloads w ++ [(download, zip)] /\
    map file (processedImages a) = batchImages w /\
    Forall (classifiedBy env predict) (processedImages a) /\
    (forall c, imagesOf c a
       = map file (filter (fun item =>
           route (confidence item) (classification item) = c)
           (processedImages a))) /\
    (length (normalImages a) + length (theftImages a)
     + length (unidentifiedImages a) = length (batchImages w))%nat /\
    size (filesOf zip) = length (batchImages w) /\
    (forall c, size (filesIn (folderOf c) zip) = length (imagesOf c a)) /\
    (forall c, zip !! (folderOf c +:+ "/") = Some Folder <->
               imagesOf c a <> []) /\
    (forall p, zip !! p = Some Folder ->
       exists c, p = folderOf c +:+ "/" /\ imagesOf c a <> []).
Proof.
  intros Hwell.
  destruct (processBatchImages_completes env predict w Hwell)
    as (a & wl & zip & k & w' & Hloop & Hzip & Hrun & Hdl & _).
  exists a, wl, zip, (folderNameAt env (now env (reads wl)) +:+ ".zip"), w'.
  split; [exact Hloop|]. split; [exact Hrun|]. split; [exact Hdl|].
  apply classifyFrom_returned in Hloop as (items & Hfiles & Hby & _ & -> & _).
  destruct (buildZip_returns env (foldl recordItem noArrays items) (tick 1 wl))
    as (zip0 & Hzip0 & Honly & Hfolders & _ & Hall & Hin).
  rewrite Hzip0 in Hzip. injection Hzip as <- _.
  assert (forall c, imagesOf c (foldl recordItem noArrays items)
            = map file (filter (fun item =>
                route (confidence item) (classification item) = c) items))
    as Himages.
  { intros c. rewrite foldl_recordItem_images. destruct c; reflexivity. }
  assert (length (normalImages (foldl recordItem noArrays items))
          + length (theftImages (foldl recordItem noArrays items))
          + length (unidentifiedImages (foldl recordItem noArrays items))
          = length (batchImages w))%nat as Hsum.
  { pose proof (Himages normal) as Hn. pose proof (Himages theft) as Ht.
    pose proof (Himages unidentified) as Hu. simpl in Hn, Ht, Hu.
    rewrite Hn, Ht, Hu, !length_map, routed_lengths.
    rewrite <- Hfiles, length_map. reflexivity. }
  rewrite foldl_recordItem_processed. simpl.
  split; [exact Hfiles|]. split; [exact Hby|].
  split; [exact Himages|]. split; [exact Hsum|].
  split; [rewrite Hall; exact Hsum|].
  split; [exact Hin|]. split; [exact Hfolders|].
  intros p Hp.
  destruct (Honly _ _ Hp) as [[_ (c & _ & ->)]|[Hf _]]; [|discriminate].
  exists c. split; [reflexivity|]. apply Hfolders, Hp.
Qed.

Lemma sample_goes_well : allGoesWell sampleEnv samplePredict sampleWorld.
Proof.
  split; [reflexivity|]. split; [discriminate|].
  split; [repeat constructor; simpl; eauto|].
  split; [reflexivity|]. intros zip. reflexivity.
Qed.

Lemma archive_files_match_routing_witness :
  exists zip download w',
    processBatchImages sampleEnv sampleWorld = Returned tt w' /\
    downloads w' = [(download, zip)] /\
    size (filesOf zip) = 3%nat /\
    size (filesIn "normal" zip) = 1%nat /\
    size (filesIn "theft" zip) = 1%nat /\
    size (filesIn "unidentified" zip) = 1%nat /\
    zip !! "normal/" = Some Folder.
Proof.
  destruct (archive_files_match_routing sampleEnv samplePredict sampleWorld
              sample_goes_well)
    as (a & wl & zip & download & w' & Hloop & Hrun & Hdl & _ & _ & _ & _
        & Hall & Hin & Hfolders & _).
  vm_compute in Hloop. injection Hloop as <- _.
  exists zip, download, w'.
  split; [exact Hrun|]. split; [exact Hdl|]. split; [exact Hall|].
  split; [exact (Hin normal)|]. split; [exact (Hin theft)|].
  split; [exact (Hin unidentified)|].
  apply (Hfolders normal). discriminate.
Defined.

(** C10.  In a run in which nothing fails, every image that the loop
    of the run has pushed on the array of a category is written in the
    archive handed to the browser: the image at position [j] of the array
    is the data, as it was selected, of the entry that the folder of the
    category holds under the name made for position [j].  The archive has
    no other file entry, and the path of every file entry ends in .jpg,
    whatever the name and the MIME type of its image. *)
Theorem archive_entries_are_jpg_named_originals
    (env : Env) (predict : Tensor4D -> option (list number)) (w : World) :
  allGoesWell env predict w ->
  exists a wl zip download w',
    classifyFrom env predict (length (batchImages w)) 0 (batchImages w)
      noArrays (started w) = Returned a wl /\
    processBatchImages env w = Returned tt w' /\
    downloads w' = downloads w ++ [(download, zip)] /\
    (forall c j image, imagesOf c a !! j = Some image ->
       Str.ends_with ".jpg"
         (fileName (folderOf c)
            (now env (S (reads wl) + readsBefore c a + j)) j) /\
       zip !! (folderOf c +:+ "/" +:+
               fileName (folderOf c)
                 (now env (S (reads wl) + readsBefore c a + j)) j)
       = Some (FileData image)) /\
    (forall p data, zip !! p = Some (FileData data) ->
       Str.ends_with ".jpg" p /\
       data ∈ batchImages w /\
       exists c j,
         imagesOf c a !! j = Some data /\
         p = folderOf c +:+ "/" +:+
             fileName (folderOf c)
               (now env (S (reads wl) + readsBefore c a + j)) j).
Proof.
  intros Hwell.
  destruct (processBatchImages_completes env predict w Hwell)
    as (a & wl & zip & k & w' & Hloop & Hzip & Hrun & Hdl & _).
  exists a, wl, zip, (folderNameAt env (now env (reads wl)) +:+ ".zip"), w'.
  split; [exact Hloop|]. split; [exact Hrun|]. split; [exact Hdl|].
  apply classifyFrom_returned in Hloop as (items & Hfiles & _ & _ & -> & _).
  split.
  - intros c j image Hj.
    split; [apply NameFacts.fileName_ends_with_jpg|].
    exact (buildZip_places _ _ _ _ _ Hzip c j image Hj).
  - intros p data Hp.
    destruct (buildZip_entries _ _ _ _ _ Hzip p data Hp) as (c & j & Hj & ->).
    split; [apply NameFacts.pathOf_ends_with_jpg|].
    split; [|exists c, j; split; [exact Hj | reflexivity]].
    apply list_elem_of_lookup_2 in Hj.
    rewrite foldl_recordItem_images in Hj.
    rewrite <- Hfiles.
    assert (data ∈ map file (filter (fun item =>
              route (confidence item) (classification item) = c) items))
      as Hin by (destruct c; exact Hj).
    apply list_elem_of_fmap in Hin as (item & -> & Hitem).
    apply list_elem_of_fmap. exists item. split; [reflexivity|].
    apply list_elem_of_filter in Hitem as [_ Hitem]. exact Hitem.
Qed.

Lemma archive_entries_are_jpg_named_originals_witness :
  exists zip download w',
    processBatchImages sampleEnv sampleWorld = Returned tt w' /\
    downloads w' = [(download, zip)] /\
    zip !! "normal/normal_1700000000000_0.jpg" = Some (FileData (png "a")) /\
    zip !! "theft/theft_1700000000000_0.jpg" = Some (FileData (png "b")) /\
    zip !! "unidentified/unidentified_1700000000000_0.jpg"
    = Some (FileData (png "c")) /\
    type (png "a") = "image/png" /\
    forall p data, zip !! p = Some (FileData data) ->
      Str.ends_with ".jpg" p /\ data ∈ [png "a"; png "b"; png "c"].
Proof.
  destruct (archive_entries_are_jpg_named_originals sampleEnv samplePredict
              sampleWorld sample_goes_well)
    as (a & wl & zip & download & w' & Hloop & Hrun & Hdl & Hwritten
        & Hentries).
  vm_compute in Hloop. injection Hloop as <- <-.
  exists zip, download, w'. split; [exact Hrun|]. split; [exact Hdl|].
  split; [exact (proj2 (Hwritten normal 0%nat (png "a") eq_refl))|].
  split; [exact (proj2 (Hwritten theft 0%nat (png "b") eq_refl))|].
  split; [exact (proj2 (Hwritten unidentified 0%nat (png "c") eq_refl))|].
  split; [reflexivity|].
  intros p data Hp. destruct (Hentries p data Hp) as (Hjpg & Hin & _). auto.
Defined.

(** ** Failures *)

(** C5, as the code has it.  When every image has been classified and
    the archive step then throws, the run ends through its catch block:
    the failure is alerted, nothing is downloaded, and the items of the
    batch are not added to [classifiedImages], which is left as it was
    before the run.  What remains of the run is the selection of images
    and the labels that the callback has received item by item. *)
Theorem archive_failure_leaves_classifiedImages_unchanged
    (env : Env) (predict : Tensor4D -> option (list number))
    (w : World) (a : Arrays) (wl wt : World) :
  model env = Some predict ->
  batchImages w <> [] ->
  classifyFrom env predict (length (batchImages w)) 0 (batchImages w)
    noArrays (started w) = Returned a wl ->
  archiveAndRecord env a wl = Thrown wt ->
  exists w',
    processBatchImages env w = Returned tt w' /\
    classifiedImages w' = classifiedImages w /\
    downloads w' = downloads w /\
    batchImages w' = batchImages w /\
    classifications w'
    = classifications w ++ map classification (processedImages a) /\
    isBatchProcessing w' = false /\
    last (events w') = Some (evSetBatchProgress 0 0) /\
    evAlert alertFailed ∈ events w'.
Proof.
  intros Hmodel Hne Hloop Harchive.
  rewrite (processBatchImages_started env predict w Hmodel Hne).
  unfold tryCatchFinally, bind at 1. rewrite Hloop, Harchive.
  apply archiveAndRecord_thrown in Harchive as [k ->].
  eexists. split; [reflexivity|]. simpl.
  apply classifyFrom_returned in Hloop
    as (items & _ & _ & _ & -> & _ & _ & _ & _ & Hcls & Hbatch & Hlabels & _
        & Hdl).
  rewrite foldl_recordItem_processed. simpl.
  split; [exact Hcls|]. split; [exact Hdl|]. split; [exact Hbatch|].
  split; [exact Hlabels|]. split; [reflexivity|].
  split; [apply last_snoc|].
  rewrite !elem_of_app, !list_elem_of_singleton. auto.
Qed.

Lemma archive_failure_leaves_classifiedImages_unchanged_witness :
  exists w',
    processBatchImages failingArchiveEnv sampleWorld = Returned tt w' /\
    classifiedImages w' = [] /\
    downloads w' = [] /\
    batchImages w' = sampleImages.
Proof.
  assert (model failingArchiveEnv = Some samplePredict) as Hmodel
    by reflexivity.
  assert (batchImages sampleWorld <> []) as Hne by discriminate.
  assert (classifyFrom failingArchiveEnv samplePredict
            (length (batchImages sampleWorld)) 0 (batchImages sampleWorld)
            noArrays (started sampleWorld)
          = Returned sampleArrays sampleStartedLoopEnd) as Hloop
    by (vm_compute; reflexivity).
  assert (archiveAndRecord failingArchiveEnv sampleArrays sampleStartedLoopEnd
          = Thrown (tick 4 sampleStartedLoopEnd)) as Harchive
    by (vm_compute; reflexivity).
  destruct (archive_failure_leaves_classifiedImages_unchanged
              failingArchiveEnv samplePredict sampleWorld sampleArrays
              sampleStartedLoopEnd (tick 4 sampleStartedLoopEnd)
              Hmodel Hne Hloop Harchive)
    as (w' & Hrun & Hcls & Hdl & Hbatch & _).
  exists w'. auto.
Defined.

(** C5 as it is worded fails: with an archive that cannot be serialized
    the three images are classified, and after the run [classifiedImages]
    holds none of the three items. *)
Lemma archive_failure_loses_the_results :
  exists wl w',
    classifyFrom failingArchiveEnv samplePredict 3 0 sampleImages noArrays
      (started sampleWorld) = Returned sampleArrays wl /\
    length (processedImages sampleArrays) = 3%nat /\
    processBatchImages failingArchiveEnv sampleWorld = Returned tt w' /\
    classifiedImages w' = [] /\
    last (events w') = Some (evSetBatchProgress 0 0) /\
    evAlert alertFailed ∈ events w'.
Proof.
  exists sampleStartedLoopEnd. eexists.
  split; [vm_compute; reflexivity|]. split; [reflexivity|].
  split; [lazy; reflexivity|]. split; [reflexivity|].
  split; [reflexivity|].
  apply list_elem_of_lookup. exists 19%nat. reflexivity.
Qed.

(** C9 against the code.  The promise of [preprocessImage] is settled
    from the load handler only, so for an image that the browser cannot
    decode it stays pending and nothing is thrown.  A run then never
    leaves the loop: it stays pending at that image with
    [isBatchProcessing] still set and the progress at that image, and no
    alert is raised by it. *)
Theorem undecodable_image_leaves_the_run_pending
    (env : Env) (predict : Tensor4D -> option (list number))
    (w : World) (front : list File) (bad : File) (rest : list File) :
  model env = Some predict ->
  batchImages w = front ++ bad :: rest ->
  Forall (classifiable env predict) front ->
  decodes env bad = false ->
  (forall w0, preprocessImage env bad w0 = Pending w0) /\
  exists w',
    processBatchImages env w = Pending w' /\
    isBatchProcessing w' = true /\
    batchProgress w' = (length front + 1, length (batchImages w))%nat /\
    classifiedImages w' = classifiedImages w /\
    (forall a, evAlert a ∉ events w -> evAlert a ∉ events w').
Proof.
  intros Hmodel Hbatch Hfront Hbad.
  split; [intros w0; unfold preprocessImage; rewrite Hbad; reflexivity|].
  assert (batchImages w <> []) as Hne
    by (rewrite Hbatch; destruct front; discriminate).
  rewrite (processBatchImages_started env predict w Hmodel Hne).
  unfold tryCatchFinally, bind at 1. rewrite Hbatch.
  destruct (classifyFrom_pending env predict (length (front ++ bad :: rest))
              front bad rest 0 noArrays (started w) Hfront Hbad)
    as (w' & Hloop & Hprog & Hbusy & Hcls & Hev).
  rewrite Hloop.
  exists w'. split; [reflexivity|]. split; [exact Hbusy|].
  split; [exact Hprog|]. split; [exact Hcls|].
  intros a Ha. apply Hev. simpl.
  rewrite elem_of_app, list_elem_of_singleton. intros [?|?]; [tauto|discriminate].
Qed.

Lemma undecodable_image_leaves_the_run_pending_witness :
  exists w',
    processBatchImages undecodableEnv sampleWorld = Pending w' /\
    isBatchProcessing w' = true /\
    batchProgress w' = (2, 3)%nat /\
    (forall a, evAlert a ∉ events w').
Proof.
  assert (Forall (classifiable undecodableEnv samplePredict) [png "a"])
    as Hfront by (repeat constructor; simpl; eauto).
  destruct (undecodable_image_leaves_the_run_pending undecodableEnv
              samplePredict sampleWorld [png "a"] (png "b") [png "c"]
              eq_refl eq_refl Hfront eq_refl)
    as (_ & w' & Hrun & Hbusy & Hprog & _ & Hev).
  exists w'. split; [exact Hrun|]. split; [exact Hbusy|].
  split; [exact Hprog|]. intros a. apply Hev. apply not_elem_of_nil.
Defined.

(** * Further properties of the component *)

(** ** The classifier at its edges *)

Lemma num_le_lt_trans a b c :
  Num.le a b = true -> Num.lt b c = true -> Num.lt a c = true.
Proof.
  unfold Num.le, Num.lt.
  destruct a as [| |x|], b as [| |y|], c as [| |z|]; simpl;
    try discriminate; try reflexivity.
  destruct (Qcompare x y) eqn:Hxy; try discriminate;
    destruct (Qcompare y z) eqn:Hyz; try discriminate; intros _ _.
  - apply Qeq_alt in Hxy. apply Qlt_alt in Hyz.
    assert (Qcompare x z = Lt) as ->
      by (apply Qlt_alt; rewrite Hxy; exact Hyz).
    reflexivity.
  - apply Qlt_alt in Hxy. apply Qlt_alt in Hyz.
    assert (Qcompare x z = Lt) as ->
      by (apply Qlt_alt; exact (Qlt_trans _ _ _ Hxy Hyz)).
    reflexivity.
Qed.

Lemma route_unidentified_iff c label :
  route c label = unidentified <-> Num.ge c Num.one = false.
Proof.
  unfold route. destruct (Num.ge c Num.one); [|tauto].
  destruct (String.eqb _ _); split; discriminate.
Qed.

(** When no output is NaN, an image goes to the unidentified array
    exactly when every output of the model for it is below 1, whatever
    the class names are. *)
Theorem unidentified_iff_all_outputs_below_one
    (classNames : list string) (probabilities : list number) :
  probabilities <> [] ->
  noNaN probabilities ->
  route (argmax probabilities).2 (labelOf classNames (argmax probabilities).1)
  = unidentified <->
  Forall (fun x => Num.lt x Num.one = true) probabilities.
Proof.
  intros Hne Hnan.
  destruct (argmax_scanned probabilities Hne) as [Hat Hall].
  pose proof Hnan as Hnan'. unfold noNaN in Hnan'.
  rewrite Forall_lookup in Hnan'.
  rewrite route_unidentified_iff. split.
  - intros Hm. apply Forall_lookup. intros j x Hj.
    apply num_le_lt_trans with (b := (argmax probabilities).2).
    + apply NumFacts.not_gt_le; eauto. apply (Hall _ _ Hj).
    + apply NumFacts.not_ge_lt; eauto.
  - intros Hlt. rewrite Forall_lookup in Hlt.
    apply NumFacts.lt_not_ge. exact (Hlt _ _ Hat).
Qed.

Lemma unidentified_iff_all_outputs_below_one_witness :
  route (argmax [Finite (8 # 10); Finite (2 # 10)]).2
    (labelOf ["normal"; "tampered"]
       (argmax [Finite (8 # 10); Finite (2 # 10)]).1) = unidentified.
Proof.
  apply (unidentified_iff_all_outputs_below_one ["normal"; "tampered"]
           [Finite (8 # 10); Finite (2 # 10)]).
  - discriminate.
  - repeat constructor.
  - repeat constructor.
Defined.

Lemma scan_from_NaN rest : forall j i, scan j rest i NaN = (i, NaN).
Proof.
  induction rest as [|x rest IH]; intros j i; simpl; [reflexivity|].
  assert (Num.gt x NaN = false) as -> by (destruct x; reflexivity).
  apply IH.
Qed.

(** An output vector that is empty or starts with NaN hides everything
    after it: index 0 is selected with a confidence that is NaN, and the
    image goes to the unidentified array. *)
Theorem NaN_first_output_selects_index_zero
    (classNames : list string) (probabilities : list number) :
  nth 0 probabilities NaN = NaN ->
  argmax probabilities = (0%nat, NaN) /\
  route (argmax probabilities).2 (labelOf classNames (argmax probabilities).1)
  = unidentified.
Proof.
  intros Hfirst. unfold argmax. rewrite Hfirst, scan_from_NaN.
  split; reflexivity.
Qed.

Lemma NaN_first_output_selects_index_zero_witness :
  argmax [NaN; Finite 1; Infinity] = (0%nat, NaN) /\
  argmax [] = (0%nat, NaN).
Proof.
  split.
  - apply (NaN_first_output_selects_index_zero [] [NaN; Finite 1; Infinity]).
    reflexivity.
  - apply (NaN_first_output_selects_index_zero [] []). reflexivity.
Defined.

Lemma placeholder_not_normal i :
  String.eqb (Str.toLowerCase (placeholder i)) "normal" = false.
Proof. reflexivity. Qed.

(** When the class names have no name for the selected index (the list is
    too short, or the name there is empty), the image is never put in the
    normal array: it is a theft at confidence 1 or above and unidentified
    otherwise. *)
Theorem unnamed_class_is_never_normal
    (classNames : list string) (maxIndex : nat) (confidence : number) :
  classNames !! maxIndex = None \/ classNames !! maxIndex = Some EmptyString ->
  labelOf classNames maxIndex = placeholder maxIndex /\
  route confidence (labelOf classNames maxIndex)
  = (if Num.ge confidence Num.one then theft else unidentified).
Proof.
  intros Hnone.
  assert (labelOf classNames maxIndex = placeholder maxIndex) as Hlabel
    by (destruct Hnone; [apply labelOf_out_of_range | apply labelOf_empty];
        assumption).
  split; [exact Hlabel|].
  rewrite Hlabel. unfold route. rewrite placeholder_not_normal. reflexivity.
Qed.

Lemma unnamed_class_is_never_normal_witness :
  labelOf ["normal"] 1 = "Class 1" /\
  route Num.one (labelOf ["normal"] 1) = theft.
Proof.
  apply (unnamed_class_is_never_normal ["normal"] 1 Num.one).
  left. reflexivity.
Defined.

(** ** Selecting the images *)

(** The selection made by [handleBatchImageSelect] replaces the previous
    one, whatever it was: it holds the chosen files whose MIME type starts
    with image/, all of them and no other, in the order in which they
    were chosen; nothing else of the state changes, and no files at all
    ([null]) is an empty selection. *)
Theorem selection_is_the_image_files_in_order
    (files : option (list File)) (w : World) :
  exists w',
    handleBatchImageSelect files w = Returned tt w' /\
    batchImages w'
    = filter (fun f => isImageFile f = true) (default [] files) /\
    sublist (batchImages w') (default [] files) /\
    (forall f, f ∈ batchImages w' <->
               f ∈ default [] files /\ isImageFile f = true) /\
    (files = None -> batchImages w' = []) /\
    batchProgress w' = batchProgress w /\
    isBatchProcessing w' = isBatchProcessing w /\
    classifiedImages w' = classifiedImages w /\
    events w' = events w /\
    downloads w' = downloads w.
Proof.
  eexists. split; [reflexivity|]. simpl.
  split; [reflexivity|].
  split; [apply sublist_filter|].
  split; [intros f; rewrite list_elem_of_filter; tauto|].
  split; [intros ->; reflexivity|]. auto.
Qed.

Lemma selection_is_the_image_files_in_order_witness :
  exists w',
    handleBatchImageSelect (Some [png "a"; txt "notes"; png "a"]) sampleWorld
    = Returned tt w' /\
    batchImages w' = [png "a"; png "a"].
Proof.
  destruct (selection_is_the_image_files_in_order
              (Some [png "a"; txt "notes"; png "a"]) sampleWorld)
    as (w' & Hsel & Hbatch & _).
  exists w'. split; [exact Hsel|]. rewrite Hbatch. reflexivity.
Defined.

(** ** The run on its other paths *)

Lemma processBatchImages_guarded env w :
  model env = None \/ batchImages w = [] ->
  processBatchImages env w = alert alertNotReady w.
Proof.
  intros Hguard. unfold processBatchImages.
  destruct (model env) as [predict|]; [|reflexivity].
  destruct Hguard as [?|Hempty]; [discriminate|].
  rewrite Hempty. reflexivity.
Qed.

Lemma alert_only_adds_an_event a w :
  exists w',
    alert a w = Returned tt w' /\
    events w' = events w ++ [evAlert a] /\
    sameButEvents w w'.
Proof.
  eexists. split; [reflexivity|]. split; [reflexivity|].
  unfold sameButEvents. simpl. auto 10.
Qed.

(** Without a model, or without a selected image, [processBatchImages]
    raises its alert and touches nothing: no progress, no processing flag,
    no clock read, no download. *)
Theorem run_without_model_or_images_only_alerts (env : Env) (w : World) :
  model env = None \/ batchImages w = [] ->
  exists w',
    processBatchImages env w = Returned tt w' /\
    events w' = events w ++ [evAlert alertNotReady] /\
    sameButEvents w w'.
Proof.
  intros Hguard.
  rewrite (processBatchImages_guarded env w Hguard).
  apply alert_only_adds_an_event.
Qed.

Lemma run_without_model_or_images_only_alerts_witness :
  exists w',
    processBatchImages sampleEnv (worldWith []) = Returned tt w' /\
    events w' = [evAlert alertNotReady] /\
    sameButEvents (worldWith []) w'.
Proof.
  apply (run_without_model_or_images_only_alerts sampleEnv (worldWith [])).
  right. reflexivity.
Defined.

(** Selecting files of which none is an image, then running, raises the
    alert of an empty selection and does nothing else. *)
Theorem selection_without_images_cannot_run
    (env : Env) (files : list File) (w : World) :
  Forall (fun f => isImageFile f = false) files ->
  exists w1 w2,
    handleBatchImageSelect (Some files) w = Returned tt w1 /\
    batchImages w1 = [] /\
    processBatchImages env w1 = Returned tt w2 /\
    events w2 = events w ++ [evAlert alertNotReady] /\
    sameButEvents w1 w2.
Proof.
  intros Hnone.
  assert (filter (fun f => isImageFile f = true) files = []) as Hempty.
  { induction Hnone as [|f files Hf _ IH]; [reflexivity|].
    rewrite filter_cons, decide_False by congruence. exact IH. }
  set (w1 := {| batchProgress := batchProgress w;
                isBatchProcessing := isBatchProcessing w;
                classifiedImages := classifiedImages w;
                batchImages := [];
                classifications := classifications w;
                reads := reads w;
                events := events w;
                downloads := downloads w |}).
  assert (batchImages w1 = []) as Hw1 by reflexivity.
  destruct (alert_only_adds_an_event alertNotReady w1)
    as (w2 & Halert & Hev & Hsame).
  exists w1, w2.
  split.
  { unfold handleBatchImageSelect, setBatchImages. simpl.
    rewrite Hempty. reflexivity. }
  split; [exact Hw1|].
  rewrite (processBatchImages_guarded env w1 (or_intror Hw1)). auto.
Qed.

Lemma selection_without_images_cannot_run_witness :
  exists w1 w2,
    handleBatchImageSelect (Some [txt "notes"; txt "log"]) sampleWorld
    = Returned tt w1 /\
    batchImages w1 = [] /\
    processBatchImages sampleEnv w1 = Returned tt w2 /\
    events w2 = [evAlert alertNotReady] /\
    sameButEvents w1 w2.
Proof.
  apply (selection_without_images_cannot_run sampleEnv
           [txt "notes"; txt "log"] sampleWorld).
  repeat constructor.
Defined.

Lemma classifyImage_thrown env predict n i image a w :
  decodes env image = true ->
  predict (expandDims (normalized image)) = None ->
  exists w', classifyImage env predict n i image a w = Thrown w' /\
    isBatchProcessing w' = isBatchProcessing w /\
    classifiedImages w' = classifiedImages w /\
    batchImages w' = batchImages w /\
    classifications w' = classifications w /\
    downloads w' = downloads w /\
    events w' = events w ++ [evSetBatchProgress (i + 1) n;
                             evPreprocessImage image].
Proof.
  intros Hdec Hpred.
  unfold classifyImage, preprocessImage, predictData, bind. simpl.
  rewrite Hdec. simpl. rewrite Hpred. eexists. split; [reflexivity|].
  simpl. rewrite <- app_assoc. auto 10.
Qed.

(** The loop stops at the first image that the model rejects, with what
    the images before it have left. *)
Lemma classifyFrom_thrown env predict n front bad rest : forall i a w,
  Forall (classifiable env predict) front ->
  decodes env bad = true ->
  predict (expandDims (normalized bad)) = None ->
  exists items w',
    classifyFrom env predict n i (front ++ bad :: rest) a w = Thrown w' /\
    map file items = front /\
    Forall (classifiedBy env predict) items /\
    isBatchProcessing w' = isBatchProcessing w /\
    classifiedImages w' = classifiedImages w /\
    batchImages w' = batchImages w /\
    downloads w' = downloads w /\
    classifications w' = classifications w ++ map classification items /\
    events w'
    = events w ++ batchEvents n i items ++
      [evSetBatchProgress (i + length front + 1) n; evPreprocessImage bad].
Proof.
  induction front as [|image front IH]; intros i a w Hall Hdec Hpred; simpl.
  - unfold bind.
    destruct (classifyImage_thrown env predict n i bad a w Hdec Hpred)
      as (w' & -> & Hbusy & Hcls & Hbatch & Hlabels & Hdl & Hev).
    exists [], w'. split; [reflexivity|]. simpl.
    rewrite Hlabels, Hev, app_nil_r, Nat.add_0_r. auto 10.
  - apply Forall_cons in Hall as [[Hdec' [probabilities Hpred']] Hrest].
    unfold bind.
    rewrite (classifyImage_returns _ _ _ _ _ _ _ _ Hdec' Hpred').
    set (item := itemOf env probabilities image (now env (reads w))).
    destruct (IH (S i) (recordItem a item) (afterItem n i item w)
                 Hrest Hdec Hpred)
      as (items & w' & -> & Hfiles & Hby & Hbusy & Hcls & Hbatch & Hdl
          & Hlabels & Hev).
    exists (item :: items), w'. split; [reflexivity|]. simpl.
    split; [rewrite Hfiles; reflexivity|].
    split; [constructor; [exists probabilities; auto | exact Hby]|].
    split; [exact Hbusy|]. split; [exact Hcls|]. split; [exact Hbatch|].
    split; [exact Hdl|].
    split; [rewrite Hlabels; simpl; rewrite <- app_assoc; reflexivity|].
    rewrite Hev. simpl. rewrite <- !app_assoc. simpl.
    replace (i + S (length front) + 1)%nat with (S i + length front + 1)%nat
      by lia.
    reflexivity.
Qed.

(** Every run that returns after having started the loop has been through
    the [finally] block: the processing flag is cleared and the progress
    is back to (0, 0), whether the run succeeded or failed. *)
Theorem returned_run_has_cleared_its_progress
    (env : Env) (predict : Tensor4D -> option (list number)) (w w' : World) :
  model env = Some predict ->
  batchImages w <> [] ->
  processBatchImages env w = Returned tt w' ->
  isBatchProcessing w' = false /\
  batchProgress w' = (0, 0)%nat /\
  last (events w') = Some (evSetBatchProgress 0 0).
Proof.
  intros Hmodel Hne.
  rewrite (processBatchImages_started env predict w Hmodel Hne).
  unfold tryCatchFinally.
  destruct (bind _ _ (started w)) as [[] w1|w1|w1]; simpl.
  - intros H. injection H as <-. simpl.
    split; [reflexivity|]. split; [reflexivity|]. apply last_snoc.
  - intros H. injection H as <-. simpl.
    split; [reflexivity|]. split; [reflexivity|]. apply last_snoc.
  - discriminate.
Qed.

Lemma returned_run_has_cleared_its_progress_witness :
  exists w',
    processBatchImages rejectingEnv sampleWorld = Returned tt w' /\
    isBatchProcessing w' = false /\ batchProgress w' = (0, 0)%nat.
Proof.
  assert (batchImages sampleWorld <> []) as Hne by discriminate.
  destruct (processBatchImages rejectingEnv sampleWorld) as [[] w'|w'|w']
    eqn:Hrun; [|vm_compute in Hrun; discriminate..].
  destruct (returned_run_has_cleared_its_progress rejectingEnv
              rejectingPredict sampleWorld w' eq_refl Hne Hrun)
    as (Hbusy & Hprog & _).
  exists w'. auto.
Defined.

(** A run is all or nothing for the model: when the model rejects one
    image, the images classified before it are dropped with it.  The run
    returns through its catch block with the failure alert; nothing is
    downloaded, [classifiedImages] is as before the run and the selection
    is kept.  The events of the run are those of the items of the images
    before the rejected one, in order, then the progress and the
    preprocessing of the rejected image, the alert and the reset: the
    callback has been called once for each image before the rejected one,
    with the label of its item, and for no other image. *)
Theorem rejected_image_aborts_the_whole_run
    (env : Env) (predict : Tensor4D -> option (list number))
    (w : World) (front : list File) (bad : File) (rest : list File) :
  model env = Some predict ->
  batchImages w = front ++ bad :: rest ->
  Forall (classifiable env predict) front ->
  decodes env bad = true ->
  predict (expandDims (normalized bad)) = None ->
  exists items w',
    processBatchImages env w = Returned tt w' /\
    map file items = front /\
    Forall (classifiedBy env predict) items /\
    downloads w' = downloads w /\
    classifiedImages w' = classifiedImages w /\
    batchImages w' = batchImages w /\
    isBatchProcessing w' = false /\
    batchProgress w' = (0, 0)%nat /\
    length (classifications w')
    = (length (classifications w) + length front)%nat /\
    evAlert alertFailed ∈ events w' /\
    classifications w' = classifications w ++ map classification items /\
    events w'
    = events w ++
      [evSetBatchProgress 0 (length (batchImages w))] ++
      batchEvents (length (batchImages w)) 0 items ++
      [evSetBatchProgress (length front + 1) (length (batchImages w));
       evPreprocessImage bad;
       evAlert alertFailed;
       evSetBatchProgress 0 0].
Proof.
  intros Hmodel Hbatch Hfront Hdec Hpred.
  assert (batchImages w <> []) as Hne
    by (rewrite Hbatch; destruct front; discriminate).
  rewrite (processBatchImages_started env predict w Hmodel Hne).
  unfold tryCatchFinally, bind at 1. rewrite Hbatch.
  destruct (classifyFrom_thrown env predict (length (front ++ bad :: rest))
              front bad rest 0 noArrays (started w) Hfront Hdec Hpred)
    as (items & wl & -> & Hfiles & Hby & _ & Hcls & Hb & Hdl & Hlabels & Hev).
  exists items. eexists. split; [reflexivity|]. simpl.
  rewrite Hdl, Hcls, Hb, Hlabels, Hev. simpl. rewrite Hbatch.
  split; [exact Hfiles|]. split; [exact Hby|].
  repeat (split; [reflexivity|]).
  split; [rewrite length_app, length_map, <- Hfiles, length_map; reflexivity|].
  split; [rewrite !elem_of_app, !list_elem_of_singleton; auto|].
  split; [reflexivity|].
  rewrite <- !app_assoc. reflexivity.
Qed.

Lemma rejected_image_aborts_the_whole_run_witness :
  exists w',
    processBatchImages rejectingEnv sampleWorld = Returned tt w' /\
    downloads w' = [] /\
    classifiedImages w' = [] /\
    batchImages w' = sampleImages /\
    classifications w' = ["normal"] /\
    exists item,
      file item = png "a" /\
      events w'
      = [evSetBatchProgress 0 3] ++ itemEvents 3 0 item ++
        [evSetBatchProgress 2 3; evPreprocessImage (png "b");
         evAlert alertFailed; evSetBatchProgress 0 0].
Proof.
  assert (Forall (classifiable rejectingEnv rejectingPredict) [png "a"])
    as Hfront by (repeat constructor; simpl; eauto).
  destruct (rejected_image_aborts_the_whole_run rejectingEnv rejectingPredict
              sampleWorld [png "a"] (png "b") [png "c"]
              eq_refl eq_refl Hfront eq_refl eq_refl)
    as (items & w' & Hrun & Hfiles & Hby & Hdl & Hcls & Hbatch & _ & _ & _ & _
        & Hlabels & Hev).
  destruct items as [|item [|item' items]]; try discriminate.
  injection Hfiles as Hfile.
  apply Forall_cons in Hby as [(probabilities & Hp & Hl & _) _].
  rewrite Hfile in Hp. vm_compute in Hp. injection Hp as <-.
  exists w'. split; [exact Hrun|]. split; [exact Hdl|].
  split; [exact Hcls|]. split; [exact Hbatch|].
  split; [rewrite Hlabels; simpl; rewrite Hl; reflexivity|].
  exists item. split; [exact Hfile|].
  rewrite Hev. reflexivity.
Defined.

(** A run that has succeeded has consumed its selection: running again
    without selecting images anew only raises the alert of an empty
    selection, and downloads nothing twice. *)
Theorem completed_run_needs_a_new_selection
    (env : Env) (predict : Tensor4D -> option (list number)) (w : World) :
  allGoesWell env predict w ->
  exists w' w'',
    processBatchImages env w = Returned tt w' /\
    length (downloads w') = S (length (downloads w)) /\
    processBatchImages env w' = Returned tt w'' /\
    events w'' = events w' ++ [evAlert alertNotReady] /\
    sameButEvents w' w''.
Proof.
  intros Hwell.
  destruct (processBatchImages_completes env predict w Hwell)
    as (a & wl & zip & k & w' & _ & _ & Hrun & Hdl & _ & Hempty & _).
  destruct (alert_only_adds_an_event alertNotReady w')
    as (w'' & Halert & Hev & Hsame).
  exists w', w''. rewrite Hdl, length_app. simpl.
  split; [exact Hrun|]. split; [lia|].
  rewrite (processBatchImages_guarded env w' (or_intror Hempty)). auto.
Qed.

Lemma completed_run_needs_a_new_selection_witness :
  exists w' w'',
    processBatchImages sampleEnv sampleWorld = Returned tt w' /\
    length (downloads w') = 1%nat /\
    processBatchImages sampleEnv w' = Returned tt w'' /\
    downloads w'' = downloads w'.
Proof.
  destruct (completed_run_needs_a_new_selection sampleEnv samplePredict
              sampleWorld sample_goes_well)
    as (w' & w'' & Hrun & Hdl & Hrun' & _ & Hsame).
  exists w', w''. unfold sameButEvents in Hsame. tauto.
Defined.

(** ** The name of the download *)

Lemma noColon_app a b :
  noColon (a +:+ b) = noColon a && noColon b.
Proof.
  induction a as [|x a IH]; [reflexivity|].
  change (negb (Ascii.eqb x ":") && noColon (a +:+ b)
          = negb (Ascii.eqb x ":") && noColon a && noColon b).
  rewrite IH. apply andb_assoc.
Qed.

Lemma noColon_replaceColons s : noColon (replaceColons s) = true.
Proof.
  induction s as [|x s IH]; [reflexivity|]. simpl.
  rewrite IH. destruct (Ascii.eqb x ":") eqn:Hx; simpl.
  - reflexivity.
  - rewrite Hx. reflexivity.
Qed.

Lemma length_replaceColons s :
  String.length (replaceColons s) = String.length s.
Proof. induction s as [|x s IH]; simpl; [|rewrite IH]; reflexivity. Qed.

Lemma length_substring_0 n : forall s,
  (String.length (String.substring 0 n s) <= n)%nat.
Proof.
  induction n as [|n IH]; intros [|x s]; simpl; try lia.
  specialize (IH s). lia.
Qed.

Lemma get_replaceColons s : forall i,
  String.get i (replaceColons s)
  = (fun c => if Ascii.eqb c ":" then "-"%char else c) <$> String.get i s.
Proof.
  induction s as [|x s IH]; intros [|i]; simpl; try reflexivity.
  apply IH.
Qed.

(** The archive is downloaded under the name filtered_, then the stamp,
    then .zip.  The stamp is made of the first 19 characters of the ISO
    text of the date read from the clock after the loop, each taken as it
    is except a colon, which becomes a dash; so the stamp has at most 19
    characters and, whatever the ISO text is, the name holds no colon. *)
Theorem download_name_has_no_colon
    (env : Env) (predict : Tensor4D -> option (list number)) (w : World) :
  allGoesWell env predict w ->
  let iso := toISOString env (now env (reads w + length (batchImages w))) in
  exists w' zip stamp,
    processBatchImages env w = Returned tt w' /\
    downloads w' = downloads w ++ [("filtered_" +:+ stamp +:+ ".zip", zip)] /\
    (forall i, (i < 19)%nat ->
       String.get i stamp
       = (fun c => if Ascii.eqb c ":" then "-"%char else c)
         <$> String.get i iso) /\
    (String.length stamp <= 19)%nat /\
    noColon ("filtered_" +:+ stamp +:+ ".zip") = true.
Proof.
  intros Hwell iso.
  destruct (processBatchImages_completes env predict w Hwell)
    as (a & wl & zip & k & w' & Hloop & _ & Hrun & Hdl & _).
  apply classifyFrom_returned in Hloop
    as (items & _ & _ & _ & _ & _ & _ & _ & _ & _ & _ & _ & Hreads & _).
  simpl in Hreads. rewrite Hreads in Hdl. fold iso in Hdl.
  exists w', zip, (replaceColons (String.substring 0 19 iso)).
  split; [exact Hrun|].
  split.
  - rewrite Hdl. unfold folderNameAt.
    rewrite NameFacts.string_app_assoc. reflexivity.
  - split; [|split].
    + intros i Hi. rewrite get_replaceColons.
      rewrite (String.substring_correct1 iso 0 19 i Hi), Nat.add_0_r.
      reflexivity.
    + rewrite length_replaceColons. apply length_substring_0.
    + rewrite !noColon_app, noColon_replaceColons. reflexivity.
Qed.

Lemma download_name_has_no_colon_witness :
  exists w' zip,
    processBatchImages sampleEnv sampleWorld = Returned tt w' /\
    downloads w' = [("filtered_2026-11-03T05-42-00.zip", zip)].
Proof.
  destruct (download_name_has_no_colon sampleEnv samplePredict sampleWorld
              sample_goes_well) as (w' & zip & stamp & Hrun & Hdl & _).
  exists w'. vm_compute in Hrun. injection Hrun as <-.
  eexists. split; reflexivity.
Defined.

(** ** No image is lost *)

(** In a run in which nothing fails no image is lost or misplaced.  For
    the arrays and the items that the loop of the run returns, the image
    at position [j] of the array of a category is the data of the entry
    named with [j], and with the clock value read for it, in the folder of
    that category; and the file of every item is the data of such an entry
    in the folder of the category that the routing gives for the
    confidence and the label of the item. *)
Theorem every_image_is_in_its_folder
    (env : Env) (predict : Tensor4D -> option (list number)) (w : World) :
  allGoesWell env predict w ->
  exists a wl zip download w',
    classifyFrom env predict (length (batchImages w)) 0 (batchImages w)
      noArrays (started w) = Returned a wl /\
    processBatchImages env w = Returned tt w' /\
    downloads w' = downloads w ++ [(download, zip)] /\
    map file (processedImages a) = batchImages w /\
    Forall (classifiedBy env predict) (processedImages a) /\
    (forall c j image, imagesOf c a !! j = Some image ->
       zip !! (folderOf c +:+ "/" +:+
               fileName (folderOf c)
                 (now env (S (reads wl) + readsBefore c a + j)) j)
       = Some (FileData image)) /\
    (forall item, item ∈ processedImages a ->
       let c := route (confidence item) (classification item) in
       exists j,
         imagesOf c a !! j = Some (file item) /\
         zip !! (folderOf c +:+ "/" +:+
                 fileName (folderOf c)
                   (now env (S (reads wl) + readsBefore c a + j)) j)
         = Some (FileData (file item))).
Proof.
  intros Hwell.
  destruct (processBatchImages_completes env predict w Hwell)
    as (a & wl & zip & k & w' & Hloop & Hzip & Hrun & Hdl & _).
  exists a, wl, zip, (folderNameAt env (now env (reads wl)) +:+ ".zip"), w'.
  split; [exact Hloop|]. split; [exact Hrun|]. split; [exact Hdl|].
  apply classifyFrom_returned in Hloop as (items & Hfiles & Hby & _ & -> & _).
  rewrite foldl_recordItem_processed. simpl app.
  split; [exact Hfiles|]. split; [exact Hby|]. split.
  - intros c j image Hj.
    exact (buildZip_places _ _ _ _ _ Hzip c j image Hj).
  - intros item Hitem c.
    assert (file item ∈ imagesOf c (foldl recordItem noArrays items)) as Hin.
    { rewrite foldl_recordItem_images.
      assert (file item ∈ map file (filter (fun item0 =>
                route (confidence item0) (classification item0) = c) items))
        as Hin'.
      { apply list_elem_of_fmap. exists item. split; [reflexivity|].
        apply list_elem_of_filter. split; [reflexivity | exact Hitem]. }
      destruct c; exact Hin'. }
    apply list_elem_of_lookup in Hin as [j Hj].
    exists j. split; [exact Hj|].
    exact (buildZip_places _ _ _ _ _ Hzip c j _ Hj).
Qed.

Lemma every_image_is_in_its_folder_witness :
  exists zip download w',
    processBatchImages sampleEnv sampleWorld = Returned tt w' /\
    downloads w' = [(download, zip)] /\
    zip !! "normal/normal_1700000000000_0.jpg" = Some (FileData (png "a")) /\
    zip !! "theft/theft_1700000000000_0.jpg" = Some (FileData (png "b")) /\
    zip !! "unidentified/unidentified_1700000000000_0.jpg"
    = Some (FileData (png "c")).
Proof.
  destruct (every_image_is_in_its_folder sampleEnv samplePredict sampleWorld
              sample_goes_well)
    as (a & wl & zip & download & w' & Hloop & Hrun & Hdl & _ & _ & Hplaced
        & _).
  vm_compute in Hloop. injection Hloop as <- <-.
  exists zip, download, w'. split; [exact Hrun|]. split; [exact Hdl|].
  split; [exact (Hplaced normal 0%nat (png "a") eq_refl)|].
  split; [exact (Hplaced theft 0%nat (png "b") eq_refl)|].
  exact (Hplaced unidentified 0%nat (png "c") eq_refl).
Defined.

(** ** The counters of the dashboard *)

Section Counting.

Context {A : Type}.
Variables P Q R : A -> Prop.
Context `{!forall x, Decision (P x)} `{!forall x, Decision (Q x)}
        `{!forall x, Decision (R x)}.

Lemma filter_length_le (l : list A) :
  (forall x, P x -> Q x) ->
  (length (filter P l) <= length (filter Q l))%nat.
Proof.
  intros Himp. induction l as [|x l IH]; [reflexivity|].
  rewrite !filter_cons.
  destruct (decide (P x)) as [Hp|Hp].
  - rewrite decide_True by auto. simpl. lia.
  - destruct (decide (Q x)); simpl; lia.
Qed.

Lemma filter_length_eq (l : list A) :
  Forall (fun x => P x <-> Q x) l ->
  length (filter P l) = length (filter Q l).
Proof.
  induction 1 as [|x l Hx _ IH]; [reflexivity|].
  rewrite !filter_cons.
  destruct (decide (P x)) as [Hp|Hp].
  - rewrite decide_True by tauto. simpl. lia.
  - rewrite decide_False by tauto. exact IH.
Qed.

Lemma filter_three_le (l : list A) :
  (forall x, ~ (P x /\ Q x)) -> (forall x, ~ (P x /\ R x)) ->
  (forall x, ~ (Q x /\ R x)) ->
  (length (filter P l) + length (filter Q l) + length (filter R l)
   <= length l)%nat.
Proof.
  intros Hpq Hpr Hqr. induction l as [|x l IH]; [reflexivity|].
  rewrite !filter_cons.
  specialize (Hpq x). specialize (Hpr x). specialize (Hqr x).
  destruct (decide (P x)), (decide (Q x)), (decide (R x)); simpl;
    try tauto; lia.
Qed.

Lemma filter_three_eq (l : list A) :
  (forall x, ~ (P x /\ Q x)) -> (forall x, ~ (P x /\ R x)) ->
  (forall x, ~ (Q x /\ R x)) ->
  Forall (fun x => P x \/ Q x \/ R x) l ->
  (length (filter P l) + length (filter Q l) + length (filter R l)
   = length l)%nat.
Proof.
  intros Hpq Hpr Hqr. induction 1 as [|x l Hx _ IH]; [reflexivity|].
  rewrite !filter_cons.
  specialize (Hpq x). specialize (Hpr x). specialize (Hqr x).
  destruct (decide (P x)), (decide (Q x)), (decide (R x)); simpl;
    try tauto; lia.
Qed.

End Counting.

Lemma countedNormal_iff item :
  String.eqb (Str.toLowerCase (classification item)) "normal"
  && Num.ge (confidence item) Num.one = true <->
  route (confidence item) (classification item) = normal.
Proof.
  unfold route.
  destruct (Num.ge _ _), (String.eqb _ _); simpl; split;
    (discriminate || reflexivity).
Qed.

Lemma countedTheft_routed item :
  String.eqb (Str.toLowerCase (classification item)) "theft"
  && Num.ge (confidence item) Num.one = true ->
  route (confidence item) (classification item) = theft.
Proof.
  unfold route. intros H. apply andb_prop in H as [Hlabel ->].
  apply String.eqb_eq in Hlabel. rewrite Hlabel. reflexivity.
Qed.

Lemma not_normal_and_theft s :
  ~ (String.eqb s "normal" = true /\ String.eqb s "theft" = true).
Proof.
  intros [Hn Ht]. apply String.eqb_eq in Hn, Ht. congruence.
Qed.

Lemma ge_lt_isNaN c :
  (Num.ge c Num.one = true /\ Num.lt c Num.one = false
   /\ Num.isNaN c = false) \/
  (Num.ge c Num.one = false /\ Num.lt c Num.one = true
   /\ Num.isNaN c = false) \/
  (Num.ge c Num.one = false /\ Num.lt c Num.one = false
   /\ Num.isNaN c = true).
Proof.
  unfold Num.ge, Num.lt, Num.one.
  destruct c as [| |q|]; simpl; auto.
  destruct (Qcompare q 1); auto.
Qed.

Lemma length_filter_bool_cons {A} (f : A -> bool) (x : A) (l : list A) :
  length (filter (fun y => f y = true) (x :: l))
  = ((if f x then 1 else 0) + length (filter (fun y => f y = true) l))%nat.
Proof.
  rewrite filter_cons. destruct (decide (f x = true)) as [H|H].
  - rewrite H. reflexivity.
  - destruct (f x); [congruence | reflexivity].
Qed.

Lemma length_filter_bool_middle {A} (f : A -> bool) (front : list A) (x : A)
    (rest : list A) :
  length (filter (fun y => f y = true) (front ++ x :: rest))
  = ((if f x then 1 else 0)
     + length (filter (fun y => f y = true) (front ++ rest)))%nat.
Proof.
  rewrite !filter_app, !length_app, length_filter_bool_cons. lia.
Qed.

Lemma counted_once_or_nowhere (item : ClassifiedItem) :
  ((if String.eqb (Str.toLowerCase (classification item)) "normal"
       && Num.ge (confidence item) Num.one then 1 else 0)
   + (if String.eqb (Str.toLowerCase (classification item)) "theft"
         && Num.ge (confidence item) Num.one then 1 else 0)
   + (if Num.lt (confidence item) Num.one then 1 else 0)
   + (if countedNowhere item then 1 else 0) = 1)%nat.
Proof.
  unfold countedNowhere.
  pose proof (not_normal_and_theft (Str.toLowerCase (classification item)))
    as Hnt.
  destruct (ge_lt_isNaN (confidence item))
    as [(-> & -> & ->)|[(-> & -> & ->)|(-> & -> & ->)]];
    destruct (String.eqb (Str.toLowerCase (classification item)) "normal");
    destruct (String.eqb (Str.toLowerCase (classification item)) "theft");
    simpl; try reflexivity; exfalso; apply Hnt; split; reflexivity.
Qed.

Lemma counted_somewhere_or_nowhere (items : list ClassifiedItem) :
  (normalCount (getClassificationStats items)
   + theftCount (getClassificationStats items)
   + unidentifiedCount (getClassificationStats items)
   + length (filter (fun item => countedNowhere item = true) items)
   = length items)%nat.
Proof.
  simpl. induction items as [|item items IH]; [reflexivity|].
  rewrite (length_filter_bool_cons (fun item =>
             String.eqb (Str.toLowerCase (classification item)) "normal"
             && Num.ge (confidence item) Num.one)).
  rewrite (length_filter_bool_cons (fun item =>
             String.eqb (Str.toLowerCase (classification item)) "theft"
             && Num.ge (confidence item) Num.one)).
  rewrite (length_filter_bool_cons (fun item =>
             Num.lt (confidence item) Num.one)).
  rewrite (length_filter_bool_cons countedNowhere).
  pose proof (counted_once_or_nowhere item) as Hitem. simpl length. lia.
Qed.

Lemma uncounted_item_changes_no_counter
    (front : list ClassifiedItem) (item : ClassifiedItem)
    (rest : list ClassifiedItem) :
  countedNowhere item = true ->
  getClassificationStats (front ++ item :: rest)
  = getClassificationStats (front ++ rest).
Proof.
  intros Hitem. unfold getClassificationStats.
  pose proof (counted_once_or_nowhere item) as Hone. rewrite Hitem in Hone.
  rewrite (length_filter_bool_middle (fun item =>
             String.eqb (Str.toLowerCase (classification item)) "normal"
             && Num.ge (confidence item) Num.one)).
  rewrite (length_filter_bool_middle (fun item =>
             String.eqb (Str.toLowerCase (classification item)) "theft"
             && Num.ge (confidence item) Num.one)).
  rewrite (length_filter_bool_middle (fun item =>
             Num.lt (confidence item) Num.one)).
  destruct (String.eqb (Str.toLowerCase (classification item)) "normal"
            && Num.ge (confidence item) Num.one);
    destruct (String.eqb (Str.toLowerCase (classification item)) "theft"
              && Num.ge (confidence item) Num.one);
    destruct (Num.lt (confidence item) Num.one);
    simpl in Hone; try lia; reflexivity.
Qed.

(** Each item of the history is counted by at most one of the three
    counters, so they add up to at most the number of items.  They add up
    to exactly that number when no confidence is NaN and every item at
    confidence 1 or above is labelled normal or theft, up to case.  The
    items that are counted nowhere are those at confidence 1 or above
    with another label and those whose confidence is NaN: the three
    counters and the number of such items add up to the number of items,
    and such an item in the history changes none of the counters. *)
Theorem counters_count_each_item_at_most_once
    (classified : list ClassifiedItem) :
  let stats := getClassificationStats classified in
  (normalCount stats + theftCount stats + unidentifiedCount stats
   <= length classified)%nat /\
  (Forall (fun item =>
     Num.isNaN (confidence item) = false /\
     (Num.ge (confidence item) Num.one = true ->
      Str.caseless_eqb (classification item) "normal" = true \/
      Str.caseless_eqb (classification item) "theft" = true)) classified ->
   (normalCount stats + theftCount stats + unidentifiedCount stats
    = length classified)%nat) /\
  (normalCount stats + theftCount stats + unidentifiedCount stats
   + length (filter (fun item => countedNowhere item = true) classified)
   = length classified)%nat /\
  (forall item,
     countedNowhere item = true <->
     (Num.ge (confidence item) Num.one = true /\
      Str.caseless_eqb (classification item) "normal" = false /\
      Str.caseless_eqb (classification item) "theft" = false) \/
     Num.isNaN (confidence item) = true) /\
  (forall front item rest,
     classified = front ++ item :: rest ->
     countedNowhere item = true ->
     stats = getClassificationStats (front ++ rest)).
Proof.
  cbv zeta.
  assert (forall item : ClassifiedItem,
            ~ (Num.ge (confidence item) Num.one = true /\
               Num.lt (confidence item) Num.one = true)) as Hgl.
  { intros item [Hge Hlt]. rewrite (NumFacts.lt_not_ge _ _ Hlt) in Hge.
    discriminate. }
  split; [|split; [|split; [|split]]].
  - simpl. apply filter_three_le.
    + intros item [Hn Ht].
      apply andb_prop in Hn as [Hn _]. apply andb_prop in Ht as [Ht _].
      exact (not_normal_and_theft _ (conj Hn Ht)).
    + intros item [Hn Hlt]. apply andb_prop in Hn as [_ Hge].
      exact (Hgl item (conj Hge Hlt)).
    + intros item [Ht Hlt]. apply andb_prop in Ht as [_ Hge].
      exact (Hgl item (conj Hge Hlt)).
  - simpl. intros Hall. apply filter_three_eq.
    + intros item [Hn Ht].
      apply andb_prop in Hn as [Hn _]. apply andb_prop in Ht as [Ht _].
      exact (not_normal_and_theft _ (conj Hn Ht)).
    + intros item [Hn Hlt]. apply andb_prop in Hn as [_ Hge].
      exact (Hgl item (conj Hge Hlt)).
    + intros item [Ht Hlt]. apply andb_prop in Ht as [_ Hge].
      exact (Hgl item (conj Hge Hlt)).
    + eapply Forall_impl; [exact Hall|]. intros item [Hnan Hlabel]. simpl.
      destruct (Num.ge (confidence item) Num.one) eqn:Hge.
      * rewrite !andb_true_r.
        destruct (Hlabel eq_refl) as [H|H];
          rewrite StrFacts.caseless_eqb_lower in H; auto.
      * right. right. apply NumFacts.not_ge_lt; auto.
  - apply counted_somewhere_or_nowhere.
  - intros item. unfold countedNowhere.
    rewrite !StrFacts.caseless_eqb_lower.
    change (Str.toLowerCase "normal") with "normal".
    change (Str.toLowerCase "theft") with "theft".
    destruct (Num.ge _ _), (String.eqb _ "normal"), (String.eqb _ "theft"),
      (Num.isNaN _); simpl; split; intros H; try reflexivity;
      try discriminate; try tauto;
      destruct H as [(? & ? & ?)|?]; discriminate.
  - intros front item rest -> Hitem.
    apply uncounted_item_changes_no_counter. exact Hitem.
Qed.

Lemma counters_count_each_item_at_most_once_witness :
  (normalCount (getClassificationStats (processedImages sampleArrays))
   + theftCount (getClassificationStats (processedImages sampleArrays))
   + unidentifiedCount (getClassificationStats (processedImages sampleArrays))
   <= 3)%nat /\
  (normalCount (getClassificationStats (processedImages sampleArrays))
   + theftCount (getClassificationStats (processedImages sampleArrays))
   + unidentifiedCount (getClassificationStats (processedImages sampleArrays))
   + 1 = 3)%nat /\
  exists item,
    processedImages sampleArrays !! 1%nat = Some item /\
    classification item = "tampered" /\
    countedNowhere item = true.
Proof.
  destruct (counters_count_each_item_at_most_once
              (processedImages sampleArrays)) as (Hle & _ & Hsum & _).
  split; [exact Hle|]. split; [exact Hsum|].
  eexists. split; [reflexivity|]. split; reflexivity.
Defined.

Lemma stats_of_items (items : list ClassifiedItem) :
  let stats := getClassificationStats items in
  normalCount stats
  = length (filter (fun item =>
      route (confidence item) (classification item) = normal) items) /\
  (theftCount stats
   <= length (filter (fun item =>
        route (confidence item) (classification item) = theft) items))%nat /\
  (unidentifiedCount stats
   <= length (filter (fun item =>
        route (confidence item) (classification item) = unidentified)
        items))%nat.
Proof.
  simpl. split; [|split].
  - apply filter_length_eq, Forall_forall. intros item _.
    apply countedNormal_iff.
  - apply filter_length_le. exact countedTheft_routed.
  - apply filter_length_le. intros item. apply route_unidentified.
Qed.

Lemma stats_app (old new : list ClassifiedItem) :
  normalCount (getClassificationStats (old ++ new))
  = (normalCount (getClassificationStats old)
     + normalCount (getClassificationStats new))%nat /\
  theftCount (getClassificationStats (old ++ new))
  = (theftCount (getClassificationStats old)
     + theftCount (getClassificationStats new))%nat /\
  unidentifiedCount (getClassificationStats (old ++ new))
  = (unidentifiedCount (getClassificationStats old)
     + unidentifiedCount (getClassificationStats new))%nat.
Proof. simpl. rewrite !filter_app, !length_app. auto. Qed.

Lemma arrays_of_items (items : list ClassifiedItem) (c : Category) :
  length (imagesOf c (foldl recordItem noArrays items))
  = length (filter (fun item =>
      route (confidence item) (classification item) = c) items).
Proof.
  rewrite foldl_recordItem_images, length_app, length_map.
  destruct c; reflexivity.
Qed.

Lemma theftCount_exact (items : list ClassifiedItem) :
  Forall (fun item =>
    route (confidence item) (classification item) = theft ->
    Str.caseless_eqb (classification item) "theft" = true) items ->
  theftCount (getClassificationStats items)
  = length (filter (fun item =>
      route (confidence item) (classification item) = theft) items).
Proof.
  intros Hall. simpl. apply filter_length_eq.
  eapply Forall_impl; [exact Hall|]. intros item Hitem. simpl in *. split.
  - apply countedTheft_routed.
  - intros Hroute. pose proof (Hitem Hroute) as Hlabel.
    rewrite StrFacts.caseless_eqb_lower in Hlabel.
    unfold route in Hroute.
    destruct (Num.ge (confidence item) Num.one); [|discriminate].
    rewrite andb_true_r. exact Hlabel.
Qed.

(** The counters against the arrays of a loop that returns.  The normal
    counter over the items of the batch is the number of images pushed on
    the normal array.  The theft counter only counts the items labelled
    theft: it is at most the number of images pushed on the theft array,
    and equal to it when every item routed there is labelled theft.  The
    unidentified counter only counts confidences that compare below 1: it
    is at most the number of images pushed on the unidentified array, and
    equal to it when no confidence is NaN. *)
Theorem counters_against_the_arrays
    (env : Env) (predict : Tensor4D -> option (list number))
    (images : list File) (w : World) (a' : Arrays) (w' : World) :
  classifyFrom env predict (length images) 0 images noArrays w
  = Returned a' w' ->
  let stats := getClassificationStats (processedImages a') in
  normalCount stats = length (normalImages a') /\
  (theftCount stats <= length (theftImages a'))%nat /\
  (unidentifiedCount stats <= length (unidentifiedImages a'))%nat /\
  (Forall (fun item =>
     route (confidence item) (classification item) = theft ->
     Str.caseless_eqb (classification item) "theft" = true)
     (processedImages a') ->
   theftCount stats = length (theftImages a')) /\
  (Forall (fun item => Num.isNaN (confidence item) = false)
     (processedImages a') ->
   unidentifiedCount stats = length (unidentifiedImages a')).
Proof.
  intros Hrun.
  apply classifyFrom_returned in Hrun as (items & _ & _ & _ & -> & _).
  rewrite foldl_recordItem_processed. simpl app.
  destruct (stats_of_items items) as (Hn & Ht & Hu).
  pose proof (arrays_of_items items normal) as An.
  pose proof (arrays_of_items items theft) as At.
  pose proof (arrays_of_items items unidentified) as Au.
  simpl imagesOf in An, At, Au. cbv zeta in *.
  rewrite An, At, Au.
  split; [exact Hn|]. split; [exact Ht|]. split; [exact Hu|].
  split.
  - intros Hall. simpl. apply filter_length_eq.
    eapply Forall_impl; [exact Hall|]. intros item Hitem. simpl in *. split.
    + apply countedTheft_routed.
    + intros Hroute. pose proof (Hitem Hroute) as Hlabel.
      rewrite StrFacts.caseless_eqb_lower in Hlabel.
      unfold route in Hroute.
      destruct (Num.ge (confidence item) Num.one); [|discriminate].
      rewrite andb_true_r. exact Hlabel.
  - intros Hall. simpl. apply filter_length_eq.
    eapply Forall_impl; [exact Hall|]. intros item Hnan. simpl in *. split.
    + apply route_unidentified.
    + intros Hroute. apply route_unidentified_iff in Hroute.
      apply NumFacts.not_ge_lt; auto.
Qed.

Lemma counters_against_the_arrays_witness :
  normalCount (getClassificationStats (processedImages sampleArrays))
  = length (normalImages sampleArrays) /\
  (theftCount (getClassificationStats (processedImages sampleArrays))
   <= length (theftImages sampleArrays))%nat /\
  theftCount (getClassificationStats (processedImages sampleArrays)) = 0%nat /\
  length (theftImages sampleArrays) = 1%nat.
Proof.
  assert (classifyFrom sampleEnv samplePredict (length sampleImages) 0
            sampleImages noArrays sampleWorld
          = Returned sampleArrays sampleLoopEnd) as Hrun
    by (vm_compute; reflexivity).
  destruct (counters_against_the_arrays _ _ _ _ _ _ Hrun)
    as (Hn & Ht & _).
  split; [exact Hn|]. split; [exact Ht|]. split; reflexivity.
Defined.

(** ** The histories after a run *)

Lemma processBatchImages_histories env predict w :
  allGoesWell env predict w ->
  exists items zip download w',
    processBatchImages env w = Returned tt w' /\
    downloads w' = downloads w ++ [(download, zip)] /\
    map file items = batchImages w /\
    classifiedImages w' = classifiedImages w ++ items /\
    classifications w' = classifications w ++ map classification items /\
    (forall c, size (filesIn (folderOf c) zip)
               = length (filter (fun item =>
                   route (confidence item) (classification item) = c)
                   items)).
Proof.
  intros Hwell. pose proof Hwell as (Hmodel & Hne & Hall & Himport & Hgen).
  destruct (classifyFrom_returns env predict (length (batchImages w))
              (batchImages w) 0 noArrays (started w) Hall)
    as (a & wl & Hloop).
  destruct (archiveAndRecord_returns env a wl Himport Hgen)
    as (zip & k & wr & Hzip & Hrec & Hdl & Hcls & _ & Hlabels).
  destruct (buildZip_returns env a (tick 1 wl))
    as (zip0 & Hzip0 & _ & _ & _ & _ & Hin).
  rewrite Hzip0 in Hzip. injection Hzip as -> _.
  rewrite (processBatchImages_started env predict w Hmodel Hne).
  unfold tryCatchFinally, bind at 1. rewrite Hloop, Hrec.
  apply classifyFrom_returned in Hloop
    as (items & Hfiles & _ & _ & -> & _ & _ & _ & _ & Hcls' & _ & Hlabels'
        & _ & Hdl').
  exists items, zip, (folderNameAt env (now env (reads wl)) +:+ ".zip").
  eexists. split; [reflexivity|]. simpl.
  rewrite Hdl, Hdl', Hcls, Hcls', Hlabels, Hlabels'.
  rewrite foldl_recordItem_processed. simpl.
  repeat (split; [first [reflexivity | exact Hfiles]|]).
  intros c. rewrite Hin. apply arrays_of_items.
Qed.

(** After a run in which nothing fails, the normal counter of the
    dashboard has grown by exactly the number of files in the normal
    folder of the archive; the theft and the unidentified counters have
    grown by at most the number of files in their folders. *)
Theorem counters_grow_with_the_archive
    (env : Env) (predict : Tensor4D -> option (list number)) (w : World) :
  allGoesWell env predict w ->
  exists zip download w',
    processBatchImages env w = Returned tt w' /\
    downloads w' = downloads w ++ [(download, zip)] /\
    normalCount (getClassificationStats (classifiedImages w'))
    = (normalCount (getClassificationStats (classifiedImages w))
       + size (filesIn "normal" zip))%nat /\
    (theftCount (getClassificationStats (classifiedImages w'))
     <= theftCount (getClassificationStats (classifiedImages w))
        + size (filesIn "theft" zip))%nat /\
    (unidentifiedCount (getClassificationStats (classifiedImages w'))
     <= unidentifiedCount (getClassificationStats (classifiedImages w))
        + size (filesIn "unidentified" zip))%nat.
Proof.
  intros Hwell.
  destruct (processBatchImages_histories env predict w Hwell)
    as (items & zip & download & w' & Hrun & Hdl & _ & Hcls & _ & Hin).
  exists zip, download, w'. split; [exact Hrun|]. split; [exact Hdl|].
  rewrite Hcls.
  destruct (stats_app (classifiedImages w) items) as (-> & -> & ->).
  destruct (stats_of_items items) as (Hn & Ht & Hu). cbv zeta in *.
  pose proof (Hin normal) as In. pose proof (Hin theft) as It.
  pose proof (Hin unidentified) as Iu. simpl folderOf in In, It, Iu.
  rewrite In, It, Iu, Hn. split; [reflexivity|]. split; lia.
Qed.

Lemma counters_grow_with_the_archive_witness :
  exists zip download w',
    processBatchImages sampleEnv sampleWorld = Returned tt w' /\
    downloads w' = [(download, zip)] /\
    normalCount (getClassificationStats (classifiedImages w'))
    = size (filesIn "normal" zip).
Proof.
  destruct (counters_grow_with_the_archive sampleEnv samplePredict sampleWorld
              sample_goes_well)
    as (zip & download & w' & Hrun & Hdl & Hn & _).
  exists zip, download, w'. auto.
Defined.

Lemma length_filter_labels (word : string) (items : list ClassifiedItem) :
  length (filter (fun c => String.eqb (Str.toLowerCase c) word = true)
            (map classification items))
  = length (filter (fun item =>
      String.eqb (Str.toLowerCase (classification item)) word = true) items).
Proof.
  induction items as [|item items IH]; [reflexivity|].
  simpl map. rewrite !filter_cons.
  destruct (decide _); simpl; rewrite IH; reflexivity.
Qed.

Lemma home_counts_labels (items : list ClassifiedItem) :
  (normalCount (getClassificationStats items)
   <= Home.normalCount (Home.getStats (map classification items)))%nat /\
  (theftCount (getClassificationStats items)
   <= Home.theftCount (Home.getStats (map classification items)))%nat.
Proof.
  simpl. rewrite !length_filter_labels.
  split; apply filter_length_le; intros item H;
    apply andb_prop in H as [H _]; exact H.
Qed.

(** The two pages keep their own history.  When they agree before a run
    in which nothing fails (the labels of [Home] are the labels of the
    items of the dashboard), they agree after it; the counters of [Home],
    which look at the label only, are then at least the counters of the
    dashboard, which also ask for a confidence of 1 or above. *)
Theorem home_counters_are_at_least_the_dashboard_counters
    (env : Env) (predict : Tensor4D -> option (list number)) (w : World) :
  allGoesWell env predict w ->
  classifications w = map classification (classifiedImages w) ->
  exists w',
    processBatchImages env w = Returned tt w' /\
    classifications w' = map classification (classifiedImages w') /\
    length (classifications w')
    = (length (classifications w) + length (batchImages w))%nat /\
    (normalCount (getClassificationStats (classifiedImages w'))
     <= Home.normalCount (Home.getStats (classifications w')))%nat /\
    (theftCount (getClassificationStats (classifiedImages w'))
     <= Home.theftCount (Home.getStats (classifications w')))%nat.
Proof.
  intros Hwell Hagree.
  destruct (processBatchImages_histories env predict w Hwell)
    as (items & zip & download & w' & Hrun & _ & Hfiles & Hcls & Hlabels & _).
  exists w'. split; [exact Hrun|].
  assert (classifications w' = map classification (classifiedImages w'))
    as Hagree' by (rewrite Hlabels, Hcls, Hagree, map_app; reflexivity).
  split; [exact Hagree'|]. split.
  - rewrite Hlabels, length_app, length_map, <- Hfiles, length_map.
    reflexivity.
  - rewrite Hagree'. apply home_counts_labels.
Qed.

Lemma home_counters_are_at_least_the_dashboard_counters_witness :
  exists w',
    processBatchImages sampleEnv sampleWorld = Returned tt w' /\
    length (classifications w') = 3%nat /\
    (normalCount (getClassificationStats (classifiedImages w'))
     <= Home.normalCount (Home.getStats (classifications w')))%nat.
Proof.
  destruct (home_counters_are_at_least_the_dashboard_counters sampleEnv
              samplePredict sampleWorld sample_goes_well eq_refl)
    as (w' & Hrun & _ & Hlen & Hn & _).
  exists w'. auto.
Defined.

(** ** Loading the model *)

(** The model that [loadLocalModel] leaves is the layers model when it
    loads and the graph model when only that one loads.  No outcome of the
    metadata request costs the model or raises an alert: the class names
    are replaced when the document carries labels and are kept as they
    were in every other case, and the loading flag is cleared. *)
Theorem model_survives_the_metadata
    (le : LoadEnv) (s : ModelState)
    (m : Tensor4D -> option (list number)) :
  loadLayersModel le = Some m \/
  (loadLayersModel le = None /\ loadGraphModel le = Some m) ->
  loadedModel (loadLocalModel le s) = Some m /\
  isModelLoading (loadLocalModel le s) = false /\
  loadAlerts (loadLocalModel le s) = loadAlerts s /\
  (forall labels, fetchMetadata le = metadataJson (Some labels) ->
     loadedClassNames (loadLocalModel le s) = labels) /\
  ((forall labels, fetchMetadata le <> metadataJson (Some labels)) ->
     loadedClassNames (loadLocalModel le s) = loadedClassNames s).
Proof.
  intros Hload. unfold loadLocalModel.
  assert (match loadLayersModel le with
          | Some m0 => Some m0
          | None => loadGraphModel le
          end = Some m) as ->
    by (destruct Hload as [->|[-> ->]]; reflexivity).
  simpl. repeat split.
  - intros labels ->. reflexivity.
  - intros Hnone. destruct (fetchMetadata le) as [| | |[labels|]];
      try reflexivity.
    destruct (Hnone labels eq_refl).
Qed.

Lemma model_survives_the_metadata_witness :
  loadedModel (loadLocalModel
    {| loadLayersModel := None; loadGraphModel := Some samplePredict;
       fetchMetadata := responseNotOk |} mounted) = Some samplePredict /\
  loadedClassNames (loadLocalModel
    {| loadLayersModel := None; loadGraphModel := Some samplePredict;
       fetchMetadata := responseNotOk |} mounted) = ["theft"; "Normal"].
Proof.
  destruct (model_survives_the_metadata
              {| loadLayersModel := None; loadGraphModel := Some samplePredict;
                 fetchMetadata := responseNotOk |} mounted samplePredict)
    as (Hm & _ & _ & _ & Hnames); [right; split; reflexivity|].
  split; [exact Hm|]. apply Hnames. discriminate.
Defined.

(** When neither loader succeeds, [loadLocalModel] raises one alert and
    leaves the model and the class names as they were, without asking for
    the metadata: a failed reload keeps the model loaded before, and a
    component whose first load failed has no model, so that a run only
    raises the alert that it is not ready. *)
Theorem failed_load_keeps_the_previous_state
    (le : LoadEnv) (s : ModelState) (env : Env) (w : World) :
  loadLayersModel le = None ->
  loadGraphModel le = None ->
  loadedModel (loadLocalModel le s) = loadedModel s /\
  loadedClassNames (loadLocalModel le s) = loadedClassNames s /\
  loadAlerts (loadLocalModel le s) = S (loadAlerts s) /\
  isModelLoading (loadLocalModel le s) = false /\
  exists w',
    processBatchImages (envWith (loadLocalModel le mounted) env) w
    = Returned tt w' /\
    events w' = events w ++ [evAlert alertNotReady] /\
    sameButEvents w w'.
Proof.
  intros Hlayers Hgraph. unfold loadLocalModel. rewrite Hlayers, Hgraph.
  simpl. repeat (split; [reflexivity|]).
  rewrite processBatchImages_guarded by (left; reflexivity).
  apply alert_only_adds_an_event.
Qed.

Lemma failed_load_keeps_the_previous_state_witness :
  loadAlerts (loadLocalModel
    {| loadLayersModel := None; loadGraphModel := None;
       fetchMetadata := metadataJson (Some ["a"; "b"]) |} mounted) = 1%nat /\
  loadedClassNames (loadLocalModel
    {| loadLayersModel := None; loadGraphModel := None;
       fetchMetadata := metadataJson (Some ["a"; "b"]) |} mounted)
  = ["theft"; "Normal"].
Proof.
  destruct (failed_load_keeps_the_previous_state
              {| loadLayersModel := None; loadGraphModel := None;
                 fetchMetadata := metadataJson (Some ["a"; "b"]) |}
              mounted sampleEnv sampleWorld eq_refl eq_refl)
    as (_ & Hnames & Halerts & _).
  split; [exact Halerts | exact Hnames].
Defined.

(** ** The default class names *)

Lemma label_of_two_defaults i :
  (i < 2)%nat ->
  labelOf ["theft"; "Normal"] i = "theft" \/
  labelOf ["theft"; "Normal"] i = "Normal".
Proof.
  intros Hi. destruct i as [|[|i]]; [left|right|lia]; reflexivity.
Qed.

(** With the class names the component starts with, theft and Normal, and
    a model whose output has one or two entries, every image pushed on the
    theft array is labelled theft: the theft counter of the dashboard over
    the items of a batch is the number of images of the theft array. *)
Theorem default_names_make_the_theft_counter_exact
    (env : Env) (predict : Tensor4D -> option (list number))
    (images : list File) (w : World) (a' : Arrays) (w' : World) :
  classNames env = ["theft"; "Normal"] ->
  (forall input probabilities, predict input = Some probabilities ->
     probabilities <> [] /\ (length probabilities <= 2)%nat) ->
  classifyFrom env predict (length images) 0 images noArrays w
  = Returned a' w' ->
  theftCount (getClassificationStats (processedImages a'))
  = length (theftImages a') /\
  normalCount (getClassificationStats (processedImages a'))
  = length (normalImages a').
Proof.
  intros Hnames Hwidth Hrun.
  apply classifyFrom_returned in Hrun as (items & _ & Hby & _ & -> & _).
  rewrite foldl_recordItem_processed. simpl app.
  pose proof (arrays_of_items items theft) as At.
  pose proof (arrays_of_items items normal) as An.
  simpl imagesOf in At, An. rewrite At, An.
  split; [|apply stats_of_items].
  apply theftCount_exact.
  eapply Forall_impl; [exact Hby|].
  intros item (probabilities & Hpred & Hlabel & _) Hroute.
  destruct (Hwidth _ _ Hpred) as [Hne Hlen].
  destruct (argmax_scanned probabilities Hne) as [Hat _].
  apply lookup_lt_Some in Hat.
  rewrite Hnames in Hlabel.
  destruct (label_of_two_defaults (argmax probabilities).1) as [Hl|Hl];
    [lia| |]; rewrite Hl in Hlabel.
  - rewrite Hlabel. reflexivity.
  - unfold route in Hroute. rewrite Hlabel in Hroute. simpl in Hroute.
    destruct (Num.ge (confidence item) Num.one); discriminate.
Qed.

Lemma default_names_make_the_theft_counter_exact_witness :
  theftCount (getClassificationStats (processedImages defaultNamesArrays))
  = length (theftImages defaultNamesArrays) /\
  theftImages defaultNamesArrays = [png "a"].
Proof.
  assert (forall input probabilities,
            samplePredict input = Some probabilities ->
            probabilities <> [] /\ (length probabilities <= 2)%nat) as Hwidth.
  { intros [[f]] probabilities. simpl.
    destruct (String.eqb (name f) "a");
      [|destruct (String.eqb (name f) "b")];
      intros H; injection H as <-; split; (discriminate || (simpl; lia)). }
  assert (classifyFrom defaultNamesEnv samplePredict (length sampleImages) 0
            sampleImages noArrays sampleWorld
          = Returned defaultNamesArrays defaultNamesLoopEnd) as Hrun
    by (vm_compute; reflexivity).
  destruct (default_names_make_the_theft_counter_exact defaultNamesEnv
              samplePredict sampleImages sampleWorld defaultNamesArrays
              defaultNamesLoopEnd eq_refl Hwidth Hrun) as [Ht _].
  split; [exact Ht | reflexivity].
Defined.
